(** * joi-validate-patch: a shallow embedding of [lib/joi-validate-patch.js]

    The library checks the operations of a JSON patch against a Joi schema
    without applying the patch.  The embedding follows the source function by
    function: [ValidationError] (the error class and its constructor),
    [addProp], [getValidator], [isArrayPath], [validateStep] and [validate].

    JavaScript values are a small tagged universe ([jsval]); a JavaScript
    exception (a [TypeError] raised by a property access on [null], by
    calling [split] or [replace] on a non-string, or by [find] on a missing
    children table) is the [Throw] case of the result type [res].

    The two libraries the source calls, [jsonpatch.validate] of
    fast-json-patch and [Joi.validate], are not part of the repository: they
    are the fields of the class [Collaborators], and every statement about
    [validateStep] and [validate] holds for all instances of it. *)

From Stdlib Require Import String Ascii List ZArith Bool Lia DecimalString.
Import ListNotations.
Local Open Scope string_scope.
Local Open Scope list_scope.

Set Warnings "-register-all".

(** ** Results of computations that may throw *)

Inductive res (A : Type) : Type :=
| Ok (a : A)
| Throw (exn : string).
Arguments Ok {A} a.
Arguments Throw {A} exn.

Definition bind {A B : Type} (m : res A) (k : A -> res B) : res B :=
  match m with
  | Ok a => k a
  | Throw e => Throw e
  end.

Notation "x <- m ;; k" := (bind m (fun x => k))
  (at level 61, m at next level, right associativity).

(** ** JavaScript values *)

(** Numbers are restricted to the integers: no claim depends on fractions or
    on [NaN]. *)
Inductive jsval : Type :=
| JUndefined
| JNull
| JBool (b : bool)
| JNum (n : Z)
| JStr (s : string)
| JArr (elements : list jsval)
| JObj (fields : list (string * jsval)).

(** [ToBoolean]: the test performed by [if(v)], [!v] and [a || b]. *)
Definition truthy (v : jsval) : bool :=
  match v with
  | JUndefined | JNull => false
  | JBool b => b
  | JNum n => negb (Z.eqb n 0)
  | JStr s => negb (String.eqb s "")
  | JArr _ | JObj _ => true
  end.

Definition string_of_Z (n : Z) : string :=
  NilZero.string_of_int (Z.to_int n).

Definition string_of_nat (n : nat) : string :=
  NilZero.string_of_uint (Nat.to_uint n).

Fixpoint join (sep : string) (l : list string) : string :=
  match l with
  | [] => ""
  | [s] => s
  | s :: rest => s ++ sep ++ join sep rest
  end.

(** [ToString], as used by template literals and by string comparison with
    [==].  An array renders its elements separated by commas, [null] and
    [undefined] elements as the empty string. *)
Fixpoint to_string (v : jsval) : string :=
  match v with
  | JUndefined => "undefined"
  | JNull => "null"
  | JBool true => "true"
  | JBool false => "false"
  | JNum n => string_of_Z n
  | JStr s => s
  | JArr l =>
      join ","
        (map (fun e => match e with
                       | JUndefined | JNull => ""
                       | _ => to_string e
                       end) l)
  | JObj _ => "[object Object]"
  end.

(** [v == lit] for a string literal [lit] that is not numeric (the source
    compares with ['move'], ['add'] and ['remove'] only): a string is compared
    as it is, an array or object through its primitive (string) form, and
    every other value differs. *)
Definition loose_eq_lit (v : jsval) (lit : string) : bool :=
  match v with
  | JStr s => String.eqb s lit
  | JArr _ | JObj _ => String.eqb (to_string v) lit
  | _ => false
  end.

(** Own-property lookup in an object literal; a missing key reads as
    [undefined]. *)
Fixpoint lookup (key : string) (fields : list (string * jsval)) : jsval :=
  match fields with
  | [] => JUndefined
  | (k, v) :: rest => if String.eqb k key then v else lookup key rest
  end.

(** [v[name]] for the five names the source reads from a patch step ([op],
    [from], [path], [value], [errors]): a primitive or an array has none of
    them, and reading a property of [null] or [undefined] throws. *)
Definition get (v : jsval) (name : string) : res jsval :=
  match v with
  | JUndefined | JNull => Throw "TypeError: cannot read property of null or undefined"
  | JObj fields => Ok (lookup name fields)
  | _ => Ok JUndefined
  end.

(** [obj[name] = v] on an object literal: overwrite in place, or append. *)
Fixpoint set_field (name : string) (v : jsval) (fields : list (string * jsval))
  : list (string * jsval) :=
  match fields with
  | [] => [(name, v)]
  | (k, w) :: rest =>
      if String.eqb k name then (k, v) :: rest
      else (k, w) :: set_field name v rest
  end.

Fixpoint indexed_from {A : Type} (i : nat) (l : list A) : list (string * A) :=
  match l with
  | [] => []
  | x :: rest => (string_of_nat i, x) :: indexed_from (S i) rest
  end.

Fixpoint chars (s : string) : list jsval :=
  match s with
  | EmptyString => []
  | String c rest => JStr (String c EmptyString) :: chars rest
  end.

(** [Object.assign({}, v)]: the own enumerable properties of [v]. *)
Definition object_assign (v : jsval) : list (string * jsval) :=
  match v with
  | JObj fields => fields
  | JArr l => indexed_from 0 l
  | JStr s => indexed_from 0 (chars s)
  | _ => []
  end.

(** ** String primitives of the source *)

(** [s.split(sep)] for a one-character separator. *)
Fixpoint split (sep : ascii) (s : string) : list string :=
  match s with
  | EmptyString => [EmptyString]
  | String c rest =>
      if Ascii.eqb c sep then EmptyString :: split sep rest
      else match split sep rest with
           | [] => [String c EmptyString]
           | piece :: pieces => String c piece :: pieces
           end
  end.

(** [s.replace(a, b)] with string arguments of one character: only the FIRST
    occurrence is replaced. *)
Fixpoint replace (a b : ascii) (s : string) : string :=
  match s with
  | EmptyString => EmptyString
  | String c rest =>
      if Ascii.eqb c a then String b rest else String c (replace a b rest)
  end.

(** [s.substr(1)]. *)
Definition substr1 (s : string) : string :=
  match s with
  | EmptyString => EmptyString
  | String _ rest => rest
  end.

(** ** Schema nodes *)

(** [_flags.presence] of a Joi rule. *)
Inductive presence : Type := Optional | Required.

(** A position of the schema tree, as [getValidator] probes it: a falsy
    value, a plain object (no [isJoi]), or a Joi rule with its [_type], its
    flags, [_inner.items] and [_inner.children].  [_inner.children] is
    [None] where Joi leaves it [null] or [undefined] (scalar rules, an object
    rule without keys). *)
Inductive schema : Type :=
| SUndefined
| SNull
| SPlain (fields : list (string * schema))
| SJoi (type : string) (flags : presence) (items : list schema)
       (children : option (list (string * schema))).

Definition present (s : schema) : bool :=
  match s with
  | SUndefined | SNull => false
  | _ => true
  end.

(** [cursor[key]] on a plain object (own properties). *)
Fixpoint field (key : string) (fields : list (string * schema)) : schema :=
  match fields with
  | [] => SUndefined
  | (k, s) :: rest => if String.eqb k key then s else field key rest
  end.

(** ** [getValidator] *)

(** [(pointer || '').split('/').splice(1)]: a truthy pointer that is not a
    string has no [split]. *)
Definition pointer_parts (pointer : jsval) : res (list string) :=
  match pointer with
  | JStr s => Ok (tl (split "/" s))
  | _ => if truthy pointer
         then Throw "TypeError: split is not a function"
         else Ok (tl (split "/" ""))
  end.

(** The body of the [forEach] callback: the cursor after one segment. *)
Definition descend (cursor : schema) (key : string) : res schema :=
  match cursor with
  | SUndefined | SNull => Ok cursor
  | SPlain fields => Ok (field key fields)
  | SJoi type _ items children =>
      if String.eqb type "array" then
        Ok (if Nat.eqb (length items) 1 then nth 0 items SUndefined
            else SUndefined)
      else
        match children with
        | None => Throw "TypeError: cannot read property find"
        | Some cs =>
            Ok (match find (fun c => String.eqb (fst c) key) cs with
                | Some child => snd child
                | None => SNull
                end)
        end
  end.

Fixpoint walk (cursor : schema) (parts : list string) : res schema :=
  match parts with
  | [] => Ok cursor
  | key :: rest => c <- descend cursor key ;; walk c rest
  end.

Definition getValidator (s : schema) (pointer : jsval) : res schema :=
  parts <- pointer_parts pointer ;; walk s parts.

Definition isArrayPath (path : jsval) : bool := false.

(** ** The error class *)

Inductive errors_field (E : Type) : Type :=
| ErrorsUnset
| ErrorsOfStep (v : jsval)
| ErrorsList (l : list E).
Arguments ErrorsUnset {E}.
Arguments ErrorsOfStep {E} v.
Arguments ErrorsList {E} l.

(** An instance of [ValidationError]: its message and the properties the
    constructor may copy from a patch step.  A property that was not set
    reads as [JUndefined]; [errors] holds either what a step carried under
    that name or the list of sub-errors of an aggregate. *)
Inductive ValidationError : Type :=
  mkValidationError (message : string) (op from path value : jsval)
                    (errors : errors_field ValidationError).

Definition message (e : ValidationError) : string :=
  match e with mkValidationError m _ _ _ _ _ => m end.
Definition error_op (e : ValidationError) : jsval :=
  match e with mkValidationError _ o _ _ _ _ => o end.
Definition error_from (e : ValidationError) : jsval :=
  match e with mkValidationError _ _ f _ _ _ => f end.
Definition error_path (e : ValidationError) : jsval :=
  match e with mkValidationError _ _ _ p _ _ => p end.
Definition error_value (e : ValidationError) : jsval :=
  match e with mkValidationError _ _ _ _ v _ => v end.
Definition error_errors (e : ValidationError) : errors_field ValidationError :=
  match e with mkValidationError _ _ _ _ _ es => es end.

(** [Error.prototype.toString] for an error named [ValidationError] (the name
    of this class, and of Joi's error class). *)
Definition Error_toString (msg : string) : string :=
  if String.eqb msg "" then "ValidationError"
  else "ValidationError: " ++ msg.

(** The second argument of the constructor: nothing, a patch step, or the
    object literal [{errors: errors}] built by [validate]. *)
Inductive details : Type :=
| NoDetails
| StepDetails (step : jsval)
| SubErrors (errors : list ValidationError).

(** [addProp]: the property is copied only when it is truthy. *)
Definition addProp (patchStep : jsval) (prop : string) : res jsval :=
  v <- get patchStep prop ;;
  Ok (if truthy v then v else JUndefined).

(** [this.path.replace('/', '.').substr(1)], applied when [this.path] is
    truthy; a truthy path that is not a string has no [replace]. *)
Definition render_path (path : jsval) : res jsval :=
  if truthy path then
    match path with
    | JStr s => Ok (JStr (substr1 (replace "/" "." s)))
    | _ => Throw "TypeError: replace is not a function"
    end
  else Ok path.

(** [new ValidationError(message, patchStep)]; [msg] is the message already
    converted to a string, as [super(message)] does. *)
Definition new_ValidationError (msg : string) (patchStep : details)
  : res ValidationError :=
  let bare :=
    mkValidationError msg JUndefined JUndefined JUndefined JUndefined
                      ErrorsUnset in
  match patchStep with
  | NoDetails => Ok bare
  | SubErrors errs =>
      Ok (mkValidationError msg JUndefined JUndefined JUndefined JUndefined
                            (ErrorsList errs))
  | StepDetails step =>
      if negb (truthy step) then Ok bare
      else
        op <- addProp step "op" ;;
        from <- addProp step "from" ;;
        path <- addProp step "path" ;;
        value <- addProp step "value" ;;
        errors <- addProp step "errors" ;;
        path' <- render_path path ;;
        Ok (mkValidationError msg op from path' value
              (if truthy errors then ErrorsOfStep errors else ErrorsUnset))
  end.

(** ** Options *)

Definition supportMap : list (string * list string) :=
  [ ("add", ["path"; "value"]);
    ("remove", ["path"]);
    ("replace", ["path"; "value"]);
    ("copy", ["from"; "path"]);
    ("move", ["from"; "path"]);
    ("test", ["path"; "value"]) ].

Record Options : Type := {
  abortEarly : bool;
  allowedOps : list string;
  allowUnknown : bool;
  convert : bool
}.

Definition defaultOptions : Options :=
  {| abortEarly := true;
     allowedOps := map fst supportMap;
     allowUnknown := false;
     convert := true |}.

(** The options object a caller passes: every key may be missing. *)
Record UserOptions : Type := {
  user_abortEarly : option bool;
  user_allowedOps : option (list string);
  user_allowUnknown : option bool;
  user_convert : option bool
}.

Definition no_options : UserOptions :=
  {| user_abortEarly := None; user_allowedOps := None;
     user_allowUnknown := None; user_convert := None |}.

Definition or_default {A : Type} (given : option A) (default : A) : A :=
  match given with Some a => a | None => default end.

(** [Object.assign({}, defaultOptions, options)]. *)
Definition merge_options (defaults : Options) (given : UserOptions) : Options :=
  {| abortEarly := or_default (user_abortEarly given) (abortEarly defaults);
     allowedOps := or_default (user_allowedOps given) (allowedOps defaults);
     allowUnknown := or_default (user_allowUnknown given) (allowUnknown defaults);
     convert := or_default (user_convert given) (convert defaults) |}.

(** What reaches Joi: the options without [allowedOps]. *)
Record JoiOptions : Type := {
  joi_abortEarly : bool;
  joi_allowUnknown : bool;
  joi_convert : bool
}.

(** [opts = Object.assign({}, options); delete opts.allowedOps]. *)
Definition strip_allowedOps (options : Options) : JoiOptions :=
  {| joi_abortEarly := abortEarly options;
     joi_allowUnknown := allowUnknown options;
     joi_convert := convert options |}.

(** [allowed.indexOf(op) < 0] is false exactly when [op] is strictly equal to
    a member of [allowed], that is, a string of the list. *)
Definition indexOf_found (allowed : list string) (op : jsval) : bool :=
  match op with
  | JStr s => existsb (String.eqb s) allowed
  | _ => false
  end.

(** ** The external collaborators *)

(** The result of [Joi.validate]: the normalized value, and the message of
    the error when the rule rejects the value. *)
Record JoiResult : Type := {
  joi_value : jsval;
  joi_error : option string
}.

(** [jsonpatch_validate sequence] is the message of the error that
    [jsonpatch.validate(sequence)] returns, [None] when it returns
    [undefined]. *)
Class Collaborators : Type := {
  jsonpatch_validate : list jsval -> option string;
  Joi_validate : jsval -> schema -> JoiOptions -> JoiResult
}.

(** ** [validateStep] and [validate] *)

Record StepResult : Type := {
  step_error : option ValidationError;
  step_value : jsval
}.

Record Outcome : Type := {
  error : option ValidationError;
  value : list jsval
}.

(** The third argument of [validate]: left out, an options object, or the
    callback. *)
Inductive third_argument : Type :=
| Omitted
| WithOptions (o : UserOptions)
| WithCallback.

(** How [validate] hands its result over: returned, or passed to the
    callback as [(err, sanitized)] (and [undefined] returned). *)
Inductive delivery : Type :=
| Returned (o : Outcome)
| CalledBack (o : Outcome).

(** [if(!cb && typeof options == 'function') cb = options]: is there a
    callback after the arguments are normalized? *)
Definition callback_given (options : third_argument) (cb : bool) : bool :=
  match options with
  | WithCallback => true
  | _ => cb
  end.

(** [if(!Array.isArray(patch)) patch = [patch]]. *)
Definition as_array (patch : jsval) : list jsval :=
  match patch with
  | JArr l => l
  | _ => [patch]
  end.

(** [Object.assign({}, defaultOptions, options || {})], after a callback in
    third position has been replaced by [{}]. *)
Definition effective_options (options : third_argument) : Options :=
  merge_options defaultOptions
    (match options with
     | WithOptions o => o
     | _ => no_options
     end).

(** [if(cb) cb(err, sanitized) else return {error: err, value: sanitized}]. *)
Definition deliver (cb : bool) (o : Outcome) : delivery :=
  if cb then CalledBack o else Returned o.

Section Validation.
Context {C : Collaborators}.

Definition fail (step : jsval) (msg : string) : res StepResult :=
  e <- new_ValidationError msg (StepDetails step) ;;
  Ok {| step_error := Some e; step_value := JNull |}.

Definition pass (clean : list (string * jsval)) : res StepResult :=
  Ok {| step_error := None; step_value := JObj clean |}.

(** The [if(step.from) { ... }] block: [Some r] when it returns [r] from
    [validateStep], [None] when control falls through. *)
Definition check_source (s : schema) (opts : JoiOptions) (step : jsval)
  : res (option StepResult) :=
  from <- get step "from" ;;
  if truthy from then
    source <- getValidator s from ;;
    path <- get step "path" ;;
    op <- get step "op" ;;
    if negb (present source) && negb (joi_allowUnknown opts) then
      r <- fail step ("invalid source " ++ to_string path) ;; Ok (Some r)
    else if present source && loose_eq_lit op "move" then
      match joi_error (Joi_validate JUndefined source opts) with
      | Some m => r <- fail step (Error_toString m) ;; Ok (Some r)
      | None => Ok None
      end
    else Ok None
  else Ok None.

(** The [if(rule && step.op == 'remove') { ... }] block. *)
Definition check_remove (rule : schema) (opts : JoiOptions) (step : jsval)
  : res (option StepResult) :=
  op <- get step "op" ;;
  if present rule && loose_eq_lit op "remove" then
    match joi_error (Joi_validate JUndefined rule opts) with
    | Some m => r <- fail step (Error_toString m) ;; Ok (Some r)
    | None => Ok None
    end
  else Ok None.

(** The last block and [return pass()]: validate and normalize the value. *)
Definition check_value (rule : schema) (opts : JoiOptions) (step : jsval)
                       (clean : list (string * jsval)) : res StepResult :=
  v <- get step "value" ;;
  if present rule && truthy v then
    let result := Joi_validate v rule opts in
    let clean' := set_field "value" (joi_value result) clean in
    match joi_error result with
    | Some m => fail step (Error_toString m)
    | None => pass clean'
    end
  else pass clean.

Definition validateStep (s : schema) (options : Options) (step : jsval)
  : res StepResult :=
  match jsonpatch_validate [step] with
  | Some formatMessage =>
      inner <- new_ValidationError formatMessage NoDetails ;;
      fail step (Error_toString (message inner))
  | None =>
      let opts := strip_allowedOps options in
      let clean := object_assign step in
      path <- get step "path" ;;
      rule <- getValidator s path ;;
      let allowed := allowedOps options in
      op <- get step "op" ;;
      if negb (indexOf_found allowed op) then
        fail step ("disallowed op " ++ to_string op)
      else if negb (present rule) && negb (joi_allowUnknown opts) then
        fail step ("invalid path " ++ to_string path)
      else
        early <- check_source s opts step ;;
        match early with
        | Some r => Ok r
        | None =>
            (* the array-insert block is empty: isArrayPath is constantly false *)
            early' <- check_remove rule opts step ;;
            match early' with
            | Some r => Ok r
            | None => check_value rule opts step clean
            end
        end
  end.

(** The [patch.every] loop, threading the two accumulators [sanitized] and
    [errors]. *)
Fixpoint every (s : schema) (options : Options) (steps : list jsval)
               (sanitized : list jsval) (errors : list ValidationError)
  : res (list jsval * list ValidationError) :=
  match steps with
  | [] => Ok (sanitized, errors)
  | step :: rest =>
      result <- validateStep s options step ;;
      let sanitized' :=
        if truthy (step_value result) then sanitized ++ [step_value result]
        else sanitized in
      match step_error result with
      | Some e =>
          if abortEarly options then Ok (sanitized', errors ++ [e])
          else every s options rest sanitized' (errors ++ [e])
      | None => every s options rest sanitized' errors
      end
  end.

(** "encapsulate failures in a single error" *)
Definition encapsulate (errors : list ValidationError)
  : res (option ValidationError) :=
  if Nat.eqb (length errors) 1 then Ok (nth_error errors 0)
  else if Nat.ltb 1 (length errors) then
    e <- new_ValidationError "patch invalid" (SubErrors errors) ;; Ok (Some e)
  else Ok None.

Definition validate (patch : jsval) (s : schema) (options : third_argument)
                    (cb : bool) : res delivery :=
  let patch1 := as_array patch in
  let cb1 := callback_given options cb in
  let options1 := effective_options options in
  let empty := match patch1 with
               | [] => true
               | first :: _ => negb (truthy first)
               end in
  errors0 <- (if empty then
                e <- new_ValidationError "empty patch" NoDetails ;; Ok [e]
              else Ok []) ;;
  let patch2 := if empty then [] else patch1 in
  acc <- every s options1 patch2 [] errors0 ;;
  err <- encapsulate (snd acc) ;;
  let outcome := {| error := err; value := fst acc |} in
  Ok (deliver cb1 outcome).

End Validation.

(** ** A sample instance of the collaborators

    A small shape check and a small rule engine, used to run the embedding on
    the schema of the repository's test suite.  The shape check follows the
    order of the checks of fast-json-patch's operation validator; the engine
    knows required and optional presence, strings, and numbers with
    conversion from decimal strings. *)
Module Sample.

Definition rfc6902_ops : list string :=
  ["add"; "remove"; "replace"; "move"; "copy"; "test"].

Definition is_string (v : jsval) : bool :=
  match v with JStr _ => true | _ => false end.

Definition check_operation (operation : jsval) : option string :=
  match operation with
  | JObj fields =>
      let op := lookup "op" fields in
      let carries_from := loose_eq_lit op "move" || loose_eq_lit op "copy" in
      let carries_value :=
        loose_eq_lit op "add" || loose_eq_lit op "replace"
        || loose_eq_lit op "test" in
      if negb (indexOf_found rfc6902_ops op) then
        Some "Operation `op` property is not one of operations defined in RFC-6902"
      else if negb (is_string (lookup "path" fields)) then
        Some "Operation `path` property is not a string"
      else if carries_from && negb (is_string (lookup "from" fields)) then
        Some "Operation `from` property is not present"
      else if carries_value
              && match lookup "value" fields with
                 | JUndefined => true
                 | _ => false
                 end then
        Some "Operation `value` property is not present"
      else None
  | _ => Some "Operation is not an object"
  end.

Fixpoint check_sequence (sequence : list jsval) : option string :=
  match sequence with
  | [] => None
  | operation :: rest =>
      match check_operation operation with
      | Some m => Some m
      | None => check_sequence rest
      end
  end.

Definition accept (v : jsval) : JoiResult :=
  {| joi_value := v; joi_error := None |}.

Definition reject (v : jsval) (m : string) : JoiResult :=
  {| joi_value := v; joi_error := Some m |}.

Definition engine (v : jsval) (rule : schema) (opts : JoiOptions)
  : JoiResult :=
  match rule with
  | SJoi type flags _ _ =>
      match v with
      | JUndefined =>
          match flags with
          | Required => reject v "value is required"
          | Optional => accept v
          end
      | _ =>
          if String.eqb type "string" then
            match v with
            | JStr (String _ _) => accept v
            | _ => reject v "value must be a string"
            end
          else if String.eqb type "number" then
            match v with
            | JNum _ => accept v
            | JStr s =>
                match NilZero.int_of_string s with
                | Some n =>
                    if joi_convert opts then accept (JNum (Z.of_int n))
                    else reject v "value must be a number"
                | None => reject v "value must be a number"
                end
            | _ => reject v "value must be a number"
            end
          else accept v
      end
  | _ => accept v
  end.

Definition collaborators : Collaborators :=
  {| jsonpatch_validate := check_sequence; Joi_validate := engine |}.

(** The schema of the test suite. *)
Definition testSchema : schema :=
  SPlain
    [ ("id", SJoi "string" Required [] None);
      ("name", SJoi "string" Required [] None);
      ("description", SJoi "string" Optional [] None);
      ("favoriteToys",
        SJoi "array" Optional [SJoi "string" Optional [] None] None);
      ("meta",
        SJoi "object" Optional []
          (Some [ ("born", SJoi "date" Required [] None);
                  ("current",
                    SJoi "object" Optional []
                      (Some [("weight", SJoi "number" Optional [] None)]))
                ])) ].

(** An array rule with two item rules: [Joi.array().items(Joi.string(),
    Joi.number())]. *)
Definition pair : schema :=
  SJoi "array" Optional
       [SJoi "string" Optional [] None; SJoi "number" Optional [] None] None.

Definition operation (op path : string) : list (string * jsval) :=
  [("op", JStr op); ("path", JStr path)].

Definition run (patch : jsval) (options : third_argument) : res delivery :=
  validate (C := collaborators) patch testSchema options false.

End Sample.

(** * Properties *)

(** ** The resolver *)

Lemma split_nonempty (sep : ascii) (s : string) : split sep s <> [].
Proof.
  destruct s as [| c rest]; simpl; [discriminate |].
  destruct (Ascii.eqb c sep); [discriminate |].
  destruct (split sep rest); discriminate.
Qed.

(** Splitting distributes over a separator placed between two strings. *)
Lemma split_separator (sep : ascii) (a b : string) :
  split sep (a ++ String sep b) = split sep a ++ split sep b.
Proof.
  induction a as [| c a IH]; simpl.
  - rewrite Ascii.eqb_refl. reflexivity.
  - destruct (Ascii.eqb c sep).
    + rewrite IH. reflexivity.
    + rewrite IH. pose proof (split_nonempty sep a) as Hne.
      destruct (split sep a) as [| piece pieces]; [contradiction | reflexivity].
Qed.

Lemma walk_app (c : schema) (l1 l2 : list string) :
  walk c (l1 ++ l2) = c' <- walk c l1 ;; walk c' l2.
Proof.
  revert c. induction l1 as [| key l1 IH]; intros c; simpl; [reflexivity |].
  destruct (descend c key) as [c1 | e]; simpl; [apply IH | reflexivity].
Qed.

(** Once the cursor is falsy it stays so: the callback returns at once. *)
Lemma walk_absent (c : schema) (parts : list string) :
  present c = false -> walk c parts = Ok c.
Proof.
  intros Hc. induction parts as [| key rest IH]; simpl; [reflexivity |].
  destruct c; try discriminate; simpl; exact IH.
Qed.

(** The segments of [prefix/rest]: those of [prefix], then those of [rest]. *)
Lemma pointer_parts_extend (prefix rest : string) :
  pointer_parts (JStr (prefix ++ String "/" rest))
  = Ok (tl (split "/" prefix) ++ split "/" rest).
Proof.
  unfold pointer_parts. rewrite split_separator.
  pose proof (split_nonempty "/" prefix) as Hne.
  destruct (split "/" prefix); [contradiction | reflexivity].
Qed.

(** A pointer that [getValidator] accepts is a string or falsy. *)
Definition renderable (p : jsval) : Prop :=
  match p with
  | JStr _ => True
  | _ => truthy p = false
  end.

Lemma getValidator_renderable (s r : schema) (p : jsval) :
  getValidator s p = Ok r -> renderable p.
Proof.
  unfold getValidator, pointer_parts, renderable.
  destruct p; simpl; auto; try discriminate.
  destruct b; simpl; [discriminate | reflexivity].
  destruct (Z.eqb n 0); simpl; [reflexivity | discriminate].
Qed.

(** A falsy pointer stands for the empty pointer: the whole schema. *)
Lemma getValidator_falsy_pointer (s : schema) (p : jsval) :
  truthy p = false -> getValidator s p = Ok s.
Proof.
  unfold getValidator, pointer_parts. intros Hp.
  destruct p; simpl in *; try reflexivity; try discriminate;
    try (rewrite Hp; reflexivity).
  destruct s0; [reflexivity | discriminate].
Qed.

(** Under a falsy schema nothing resolves. *)
Lemma getValidator_absent_schema (s r : schema) (p : jsval) :
  present s = false -> getValidator s p = Ok r -> r = s.
Proof.
  unfold getValidator. intros Hs.
  destruct (pointer_parts p) as [parts | e]; simpl; [| discriminate].
  rewrite (walk_absent s parts Hs). congruence.
Qed.

(** C2. When a pointer [prefix] resolves to a Joi rule of type array, the
    pointer [prefix/rest] resolves as follows.  If the array declares exactly
    one item rule, the walk continues from that item rule with the segments
    after the first one of [rest]: the index segment itself (a number or the
    append marker) is not looked at.  If the array declares no item rule, or
    more than one, the result is [undefined] whatever follows. *)
Theorem C2_array_rule_indexing :
  forall (s : schema) (prefix rest : string) (flags : presence)
         (items : list schema) (children : option (list (string * schema))),
    getValidator s (JStr prefix) = Ok (SJoi "array" flags items children) ->
    (forall item, items = [item] ->
       getValidator s (JStr (prefix ++ String "/" rest))
       = walk item (tl (split "/" rest)))
    /\ (length items <> 1 ->
        getValidator s (JStr (prefix ++ String "/" rest)) = Ok SUndefined).
Proof.
  intros s prefix rest flags items children Hprefix.
  unfold getValidator in *. rewrite pointer_parts_extend.
  simpl in Hprefix. simpl. rewrite walk_app, Hprefix. simpl.
  pose proof (split_nonempty "/" rest) as Hne.
  destruct (split "/" rest) as [| key more]; [contradiction |].
  simpl. split.
  - intros item ->. reflexivity.
  - intros Hlen. destruct (Nat.eqb_spec (length items) 1); [contradiction |].
    simpl. apply walk_absent. reflexivity.
Qed.

Lemma C2_array_rule_indexing_witness :
  getValidator Sample.testSchema (JStr "/favoriteToys/-")
  = Ok (SJoi "string" Optional [] None)
  /\ getValidator Sample.testSchema (JStr "/favoriteToys/0")
     = Ok (SJoi "string" Optional [] None)
  /\ getValidator (SPlain [("pair", Sample.pair)]) (JStr "/pair/0")
     = Ok SUndefined.
Proof.
  split; [| split].
  - apply (proj1 (C2_array_rule_indexing Sample.testSchema "/favoriteToys" "-"
                    Optional [SJoi "string" Optional [] None] None eq_refl)).
    reflexivity.
  - apply (proj1 (C2_array_rule_indexing Sample.testSchema "/favoriteToys" "0"
                    Optional [SJoi "string" Optional [] None] None eq_refl)).
    reflexivity.
  - apply (proj2 (C2_array_rule_indexing (SPlain [("pair", Sample.pair)])
                    "/pair" "0" Optional
                    [SJoi "string" Optional [] None;
                     SJoi "number" Optional [] None] None eq_refl)).
    discriminate.
Defined.

(** ** The error class *)

Definition bare_error (msg : string) : ValidationError :=
  mkValidationError msg JUndefined JUndefined JUndefined JUndefined ErrorsUnset.

Lemma render_path_renderable (p : jsval) :
  renderable p -> exists p', render_path p = Ok p'.
Proof.
  unfold renderable, render_path.
  destruct p; intros Hp; try (rewrite Hp; eauto).
  destruct (truthy (JStr s)); eauto.
Qed.

(** What the constructor copies from an object: the truthy ones among its
    five properties, the path rendered. *)
Lemma new_ValidationError_object (msg : string) (fields : list (string * jsval)) :
  renderable (lookup "path" fields) ->
  exists p,
    new_ValidationError msg (StepDetails (JObj fields))
    = Ok (mkValidationError msg
            (if truthy (lookup "op" fields) then lookup "op" fields
             else JUndefined)
            (if truthy (lookup "from" fields) then lookup "from" fields
             else JUndefined)
            p
            (if truthy (lookup "value" fields) then lookup "value" fields
             else JUndefined)
            (if truthy (lookup "errors" fields)
             then ErrorsOfStep (lookup "errors" fields) else ErrorsUnset))
    /\ render_path (if truthy (lookup "path" fields)
                    then lookup "path" fields else JUndefined) = Ok p.
Proof.
  intros Hp.
  assert (Hr : renderable (if truthy (lookup "path" fields)
                           then lookup "path" fields else JUndefined)).
  { destruct (truthy (lookup "path" fields)); [exact Hp | reflexivity]. }
  destruct (render_path_renderable _ Hr) as [p Hrender].
  exists p. split; [| exact Hrender].
  unfold new_ValidationError, addProp. simpl.
  rewrite Hrender. simpl.
  destruct (truthy (lookup "errors" fields)) eqn:He; simpl.
  - rewrite He. reflexivity.
  - reflexivity.
Qed.

(** A scalar has none of the five properties. *)
Definition scalar (v : jsval) : bool :=
  match v with
  | JBool _ | JNum _ | JStr _ => true
  | _ => false
  end.

Lemma new_ValidationError_scalar (msg : string) (v : jsval) :
  scalar v = true ->
  new_ValidationError msg (StepDetails v) = Ok (bare_error msg).
Proof.
  destruct v; simpl; try discriminate; intros _;
    unfold new_ValidationError;
    match goal with |- context [negb ?b] => destruct b end; reflexivity.
Qed.

(** For a pointer of one segment the rendering is the segment itself. *)
Lemma render_path_single_segment (key : string) :
  render_path (JStr (String "/" key)) = Ok (JStr key).
Proof. reflexivity. Qed.

(** Only the first slash of a pointer becomes a dot, and that dot is the
    character [substr(1)] then drops: every later slash is kept. *)
Lemma render_path_keeps_later_slashes (a b : string) :
  render_path (JStr (String "/" (a ++ String "/" b)))
  = Ok (JStr (a ++ String "/" b)).
Proof. reflexivity. Qed.

(** ** The orchestrator *)

(** The values [validate] keeps and the errors it records, for a list of
    per-step results: [processed] cuts the list after the first failure when
    [abortEarly] is set. *)
Definition kept (results : list StepResult) : list jsval :=
  flat_map (fun r => if truthy (step_value r) then [step_value r] else [])
           results.

Definition failures (results : list StepResult) : list ValidationError :=
  flat_map (fun r => match step_error r with
                     | Some e => [e]
                     | None => []
                     end) results.

Fixpoint processed (abort : bool) (results : list StepResult)
  : list StepResult :=
  match results with
  | [] => []
  | r :: rest =>
      match step_error r with
      | Some _ => if abort then [r] else r :: processed abort rest
      | None => r :: processed abort rest
      end
  end.

Lemma processed_all (results : list StepResult) :
  processed false results = results.
Proof.
  induction results as [| r rest IH]; simpl; [reflexivity |].
  rewrite IH. destruct (step_error r); reflexivity.
Qed.

Lemma failures_processed_abort (results : list StepResult) :
  failures (processed true results) = firstn 1 (failures results).
Proof.
  induction results as [| r rest IH]; simpl; [reflexivity |].
  destruct (step_error r) eqn:He; simpl; rewrite He; simpl.
  - destruct (failures rest); reflexivity.
  - exact IH.
Qed.

Definition aggregate (errors : list ValidationError) : option ValidationError :=
  match errors with
  | [] => None
  | [e] => Some e
  | _ =>
      Some (mkValidationError "patch invalid" JUndefined JUndefined JUndefined
                              JUndefined (ErrorsList errors))
  end.

Section Orchestrator.
Context {C : Collaborators}.

Lemma encapsulate_aggregate (errors : list ValidationError) :
  encapsulate errors = Ok (aggregate errors).
Proof.
  destruct errors as [| e1 [| e2 more]]; reflexivity.
Qed.

(** The loop, for steps that all return: the accumulators grow by the kept
    values and the failures of the processed steps, in order. *)
Lemma every_results (s : schema) (options : Options)
      (steps : list jsval) (results : list StepResult) :
  Forall2 (fun step r => validateStep s options step = Ok r) steps results ->
  forall sanitized errors,
    every s options steps sanitized errors
    = Ok (sanitized ++ kept (processed (abortEarly options) results),
          errors ++ failures (processed (abortEarly options) results)).
Proof.
  induction 1 as [| step r steps results Hstep _ IH]; intros sanitized errors.
  - simpl. rewrite !app_nil_r. reflexivity.
  - simpl. rewrite Hstep. simpl.
    destruct (step_error r) as [e |] eqn:He.
    + destruct (abortEarly options); simpl.
      * rewrite He. simpl. rewrite !app_nil_r.
        destruct (truthy (step_value r)); rewrite ?app_nil_r; reflexivity.
      * rewrite IH, He. simpl.
        destruct (truthy (step_value r)); simpl;
          rewrite <- ?app_assoc; reflexivity.
    + rewrite IH. simpl. rewrite He. simpl.
      destruct (truthy (step_value r)); simpl;
        rewrite <- ?app_assoc; reflexivity.
Qed.

(** A batch whose first element is truthy is run through the loop. *)
Lemma validate_batch (patch : jsval) (s : schema) (options : third_argument)
      (cb : bool) (results : list StepResult) :
  truthy (hd JUndefined (as_array patch)) = true ->
  Forall2 (fun step r => validateStep s (effective_options options) step = Ok r)
          (as_array patch) results ->
  validate patch s options cb
  = Ok (deliver (callback_given options cb)
          {| error := aggregate
                        (failures (processed
                           (abortEarly (effective_options options)) results));
             value := kept (processed
                              (abortEarly (effective_options options))
                              results) |}).
Proof.
  intros Hfirst Hall. unfold validate.
  destruct (as_array patch) as [| first rest] eqn:Hpatch;
    [discriminate |].
  simpl in Hfirst. rewrite Hfirst. cbn [negb bind].
  rewrite (every_results _ _ _ _ Hall). cbn [bind snd fst app].
  rewrite encapsulate_aggregate. reflexivity.
Qed.

(** An empty batch, or one whose first element is falsy, never reaches the
    loop. *)
Lemma validate_empty (patch : jsval) (s : schema) (options : third_argument)
      (cb : bool) :
  truthy (hd JUndefined (as_array patch)) = false ->
  validate patch s options cb
  = Ok (deliver (callback_given options cb)
          {| error := Some (bare_error "empty patch"); value := [] |}).
Proof.
  intros Hfirst. unfold validate.
  destruct (as_array patch) as [| first rest]; simpl in *.
  - reflexivity.
  - rewrite Hfirst. reflexivity.
Qed.

End Orchestrator.

(** C4. For a batch whose first element is truthy and whose steps all return
    a result, let [errs] be the errors of the processed steps, in input
    order.  The returned error is [null] when [errs] is empty, the error
    itself when there is exactly one, and otherwise one error with message
    'patch invalid' whose [errors] property is [errs].  With [abortEarly]
    false every step is processed, so [errs] lists the errors of all failing
    steps; with [abortEarly] true processing stops at the first failure. *)
Theorem C4_error_aggregation :
  forall (C : Collaborators) (patch : jsval) (s : schema)
         (options : third_argument) (cb : bool) (results : list StepResult),
    truthy (hd JUndefined (as_array patch)) = true ->
    Forall2 (fun step r => validateStep s (effective_options options) step = Ok r)
            (as_array patch) results ->
    let abort := abortEarly (effective_options options) in
    let errs := failures (processed abort results) in
    exists o,
      validate patch s options cb = Ok (deliver (callback_given options cb) o)
      /\ (errs = [] -> error o = None)
      /\ (forall e, errs = [e] -> error o = Some e)
      /\ (2 <= length errs ->
          error o = Some (mkValidationError "patch invalid" JUndefined
                            JUndefined JUndefined JUndefined (ErrorsList errs)))
      /\ (abort = false -> errs = failures results)
      /\ (abort = true -> errs = firstn 1 (failures results)).
Proof.
  intros C patch s options cb results Hfirst Hall abort errs.
  eexists. split; [apply (validate_batch _ _ _ _ _ Hfirst Hall) |].
  fold abort. fold errs. simpl.
  repeat split.
  - intros ->. reflexivity.
  - intros e ->. reflexivity.
  - intros Hlen. destruct errs as [| e1 [| e2 more]]; simpl in Hlen;
      [lia | lia | reflexivity].
  - intros Habort. unfold errs. rewrite Habort, processed_all. reflexivity.
  - intros Habort. unfold errs. rewrite Habort.
    apply failures_processed_abort.
Qed.

Module Batch.
Import Sample.

(** The batch of the test 'abortEarly allows gathering all errors'. *)
Definition three_steps : jsval :=
  JArr [ JObj [("op", JStr "move"); ("from", JStr "/blah");
               ("path", JStr "/description")];
         JObj [("op", JStr "replace"); ("path", JStr "/meta/current/weight");
               ("value", JNum 4)];
         JObj [("op", JStr "remove"); ("path", JStr "/blah")] ].

Definition collect_all : third_argument :=
  WithOptions {| user_abortEarly := Some false; user_allowedOps := None;
                 user_allowUnknown := None; user_convert := None |}.

Definition invalid_source : ValidationError :=
  mkValidationError "invalid source /description" (JStr "move")
                    (JStr "/blah") (JStr "description") JUndefined ErrorsUnset.

Definition invalid_path : ValidationError :=
  mkValidationError "invalid path /blah" (JStr "remove") JUndefined
                    (JStr "blah") JUndefined ErrorsUnset.

Definition three_results : list StepResult :=
  [ {| step_error := Some invalid_source; step_value := JNull |};
    {| step_error := None;
       step_value := JObj [("op", JStr "replace");
                           ("path", JStr "/meta/current/weight");
                           ("value", JNum 4)] |};
    {| step_error := Some invalid_path; step_value := JNull |} ].
End Batch.

Lemma C4_error_aggregation_witness :
  exists o,
    Sample.run Batch.three_steps Batch.collect_all = Ok (Returned o)
    /\ error o
       = Some (mkValidationError "patch invalid" JUndefined JUndefined
                 JUndefined JUndefined
                 (ErrorsList [Batch.invalid_source; Batch.invalid_path])).
Proof.
  destruct (C4_error_aggregation Sample.collaborators Batch.three_steps
              Sample.testSchema Batch.collect_all false Batch.three_results)
    as (o & Hrun & _ & _ & Htwo & _).
  - reflexivity.
  - repeat constructor.
  - exists o. split; [exact Hrun |]. apply Htwo. simpl. lia.
Defined.

(** C10. When the first element of the patch array is falsy, [validate]
    reports the 'empty patch' error and an empty value list, whatever the
    remaining elements are: none of them is handed to [validateStep]. *)
Theorem C10_falsy_first_element :
  forall (C : Collaborators) (first : jsval) (rest : list jsval) (s : schema)
         (options : third_argument) (cb : bool),
    truthy first = false ->
    validate (JArr (first :: rest)) s options cb
    = Ok (deliver (callback_given options cb)
            {| error := Some (bare_error "empty patch"); value := [] |}).
Proof.
  intros C first rest s options cb Hfirst.
  apply validate_empty. exact Hfirst.
Qed.

Lemma C10_falsy_first_element_witness :
  Sample.run (JArr [JNull; JObj (Sample.operation "remove" "/description")])
             Omitted
  = Ok (Returned {| error := Some (bare_error "empty patch"); value := [] |})
  /\ Sample.run (JArr [JObj (Sample.operation "remove" "/description")]) Omitted
     = Ok (Returned
             {| error := None;
                value := [JObj (Sample.operation "remove" "/description")] |}).
Proof.
  split.
  - apply (C10_falsy_first_element Sample.collaborators JNull
             [JObj (Sample.operation "remove" "/description")]
             Sample.testSchema Omitted false).
    reflexivity.
  - reflexivity.
Defined.

(** C7. For an empty array, [null], or a scalar, [validate] returns a
    non-null error and an empty value list, provided the shape check rejects
    the scalar when it is truthy.  For the empty array, [null] and the falsy
    scalars (0, the empty string, false) the error is the 'empty patch'
    error, which carries no step property.  A truthy scalar is not an empty
    patch: it is treated as a batch of one step, and the error is the one
    [validateStep] builds from the message of the shape check. *)
Theorem C7_empty_or_scalar_input :
  forall (C : Collaborators) (patch : jsval) (s : schema)
         (options : third_argument) (cb : bool),
    patch = JArr [] \/ patch = JNull \/ scalar patch = true ->
    (scalar patch = true -> truthy patch = true ->
     jsonpatch_validate [patch] <> None) ->
    exists e,
      validate patch s options cb
      = Ok (deliver (callback_given options cb)
              {| error := Some e; value := [] |})
      /\ (patch = JArr [] \/ truthy patch = false ->
          e = bare_error "empty patch")
      /\ (scalar patch = true -> truthy patch = true ->
          exists m, jsonpatch_validate [patch] = Some m
                    /\ e = bare_error (Error_toString m)).
Proof.
  intros C patch s options cb Hkind Hshape.
  assert (Hcases : truthy (hd JUndefined (as_array patch)) = false
                   \/ (scalar patch = true /\ truthy patch = true)).
  { destruct Hkind as [-> | [-> | Hsc]]; [left; reflexivity .. |].
    destruct (truthy patch) eqn:Ht; [right; split; auto |].
    left. destruct patch; try discriminate; exact Ht. }
  destruct Hcases as [Hempty | [Hsc Ht]].
  - exists (bare_error "empty patch").
    split; [apply validate_empty; exact Hempty |].
    split; [reflexivity |].
    intros Hsc Ht. exfalso.
    destruct patch; try discriminate; simpl in *; congruence.
  - destruct (jsonpatch_validate [patch]) as [m |] eqn:Hm;
      [| exfalso; apply (Hshape Hsc Ht); reflexivity].
    exists (bare_error (Error_toString m)).
    assert (Hstep : validateStep s (effective_options options) patch
                    = Ok {| step_error := Some (bare_error (Error_toString m));
                            step_value := JNull |}).
    { unfold validateStep. rewrite Hm. simpl. unfold fail.
      rewrite (new_ValidationError_scalar _ _ Hsc). reflexivity. }
    assert (Harr : as_array patch = [patch])
      by (destruct patch; try discriminate; reflexivity).
    split.
    + rewrite (validate_batch patch s options cb
                 [{| step_error := Some (bare_error (Error_toString m));
                     step_value := JNull |}]).
      * generalize (abortEarly (effective_options options)).
        intros []; reflexivity.
      * rewrite Harr. exact Ht.
      * rewrite Harr. repeat constructor. exact Hstep.
    + split.
      * intros [-> | Hf]; [discriminate | congruence].
      * intros _ _. exists m. split; reflexivity.
Qed.

Lemma C7_empty_or_scalar_input_witness :
  exists e,
    Sample.run (JNum 5) Omitted
    = Ok (Returned {| error := Some e; value := [] |})
    /\ e = bare_error "ValidationError: Operation is not an object".
Proof.
  destruct (C7_empty_or_scalar_input Sample.collaborators (JNum 5)
              Sample.testSchema Omitted false) as (e & Hrun & _ & Hscalar).
  - right. right. reflexivity.
  - intros _ _. discriminate.
  - exists e. split; [exact Hrun |].
    destruct (Hscalar eq_refl eq_refl) as (m & Hm & ->).
    injection Hm as <-. reflexivity.
Defined.

(** The claim C7 as the specification words it fails on the scalar ['blah']:
    the error [validate] returns for it is the shape error of the single
    step, not the 'empty patch' error. *)
Lemma C7_truthy_scalar_is_not_empty_patch :
  scalar (JStr "blah") = true
  /\ exists e,
       Sample.run (JStr "blah") Omitted
       = Ok (Returned {| error := Some e; value := [] |})
       /\ message e = "ValidationError: Operation is not an object"
       /\ message e <> "empty patch".
Proof.
  split; [reflexivity |].
  eexists. split; [reflexivity |]. split; [reflexivity | discriminate].
Qed.

(** ** The operation validator *)

Section Operation.
Context {C : Collaborators}.
Variables (s : schema) (options : Options) (fields : list (string * jsval)).

Let step : jsval := JObj fields.
Let opts : JoiOptions := strip_allowedOps options.

Definition passed : StepResult :=
  {| step_error := None; step_value := JObj fields |}.

Definition failed (e : ValidationError) : StepResult :=
  {| step_error := Some e; step_value := JNull |}.

(** [fail] on an object whose path is a string or falsy: an error with the
    given message, and the value [null]. *)
Lemma fail_object (msg : string) :
  renderable (lookup "path" fields) ->
  exists e, fail step msg = Ok (failed e) /\ message e = msg.
Proof.
  intros Hp. unfold fail, step.
  destruct (new_ValidationError_object msg fields Hp) as (p & -> & _).
  eexists. split; reflexivity.
Qed.

(** [validateStep] on an object that passes the shape check, up to the
    block on [from]. *)
Lemma validateStep_object (rule : schema) :
  jsonpatch_validate [step] = None ->
  getValidator s (lookup "path" fields) = Ok rule ->
  validateStep s options step
  = if negb (indexOf_found (allowedOps options) (lookup "op" fields)) then
      fail step ("disallowed op " ++ to_string (lookup "op" fields))
    else if negb (present rule) && negb (allowUnknown options) then
      fail step ("invalid path " ++ to_string (lookup "path" fields))
    else
      early <- check_source s opts step ;;
      match early with
      | Some r => Ok r
      | None =>
          early' <- check_remove rule opts step ;;
          match early' with
          | Some r => Ok r
          | None => check_value rule opts step fields
          end
      end.
Proof.
  intros Hshape Hrule. unfold validateStep. rewrite Hshape.
  cbn [get step bind]. rewrite Hrule. reflexivity.
Qed.

Lemma check_source_no_from :
  truthy (lookup "from" fields) = false ->
  check_source s opts step = Ok None.
Proof.
  intros Hfrom. unfold check_source. cbn [get step bind].
  rewrite Hfrom. reflexivity.
Qed.

Lemma check_source_from (source : schema) :
  truthy (lookup "from" fields) = true ->
  getValidator s (lookup "from" fields) = Ok source ->
  check_source s opts step
  = if negb (present source) && negb (allowUnknown options) then
      r <- fail step ("invalid source " ++ to_string (lookup "path" fields)) ;;
      Ok (Some r)
    else if present source && loose_eq_lit (lookup "op" fields) "move" then
      match joi_error (Joi_validate JUndefined source opts) with
      | Some m => r <- fail step (Error_toString m) ;; Ok (Some r)
      | None => Ok None
      end
    else Ok None.
Proof.
  intros Hfrom Hsource. unfold check_source. cbn [get step bind].
  rewrite Hfrom, Hsource. reflexivity.
Qed.

Lemma check_remove_other_op (rule : schema) :
  present rule && loose_eq_lit (lookup "op" fields) "remove" = false ->
  check_remove rule opts step = Ok None.
Proof.
  intros Hop. unfold check_remove. cbn [get step bind].
  rewrite Hop. reflexivity.
Qed.

Lemma check_value_skipped (rule : schema) :
  present rule && truthy (lookup "value" fields) = false ->
  check_value rule opts step fields = Ok passed.
Proof.
  intros Hv. unfold check_value. cbn [get step bind].
  rewrite Hv. reflexivity.
Qed.

(** A falsy source under a present target is impossible unless [from] is
    truthy: a falsy [from] stands for the whole schema. *)
Lemma absent_source_has_from (rule source : schema) :
  getValidator s (lookup "path" fields) = Ok rule ->
  getValidator s (lookup "from" fields) = Ok source ->
  present rule = true -> present source = false ->
  truthy (lookup "from" fields) = true.
Proof.
  intros Hrule Hsource Hr Hs.
  destruct (truthy (lookup "from" fields)) eqn:Hfrom; [reflexivity |].
  rewrite (getValidator_falsy_pointer s _ Hfrom) in Hsource.
  injection Hsource as <-.
  rewrite (getValidator_absent_schema s _ _ Hs Hrule) in Hr. congruence.
Qed.

End Operation.

(** One step through the orchestrator: the error of the step, and its value
    when there is one. *)
Lemma validate_single (C : Collaborators) (fields : list (string * jsval))
      (s : schema) (options : third_argument) (cb : bool) (r : StepResult) :
  validateStep s (effective_options options) (JObj fields) = Ok r ->
  validate (JObj fields) s options cb
  = Ok (deliver (callback_given options cb)
          {| error := step_error r;
             value := if truthy (step_value r) then [step_value r] else [] |}).
Proof.
  intros Hstep.
  rewrite (validate_batch (JObj fields) s options cb [r]);
    [| reflexivity | repeat constructor; exact Hstep].
  generalize (abortEarly (effective_options options)).
  destruct r as [[e |] v]; intros []; simpl;
    destruct (truthy v); reflexivity.
Qed.

(** C8. An add, replace or test operation that passes the shape check and
    the allow-list, carries no [from], and whose path resolves to a rule, but
    whose value is falsy, is returned as it is with a null error: the engine
    is not consulted, whatever it would answer for that value. *)
Theorem C8_falsy_value_skips_validation :
  forall (C : Collaborators) (s : schema) (options : Options)
         (fields : list (string * jsval)) (rule : schema) (op : string),
    jsonpatch_validate [JObj fields] = None ->
    lookup "op" fields = JStr op ->
    In op ["add"; "replace"; "test"] ->
    indexOf_found (allowedOps options) (JStr op) = true ->
    truthy (lookup "from" fields) = false ->
    getValidator s (lookup "path" fields) = Ok rule ->
    present rule = true ->
    truthy (lookup "value" fields) = false ->
    validateStep s options (JObj fields)
    = Ok {| step_error := None; step_value := JObj fields |}.
Proof.
  intros C s options fields rule op Hshape Hop Hkind Hallowed Hfrom Hrule
         Hpresent Hvalue.
  rewrite (validateStep_object s options fields rule Hshape Hrule).
  rewrite Hop, Hallowed, Hpresent. cbn [negb andb].
  rewrite (check_source_no_from s options fields Hfrom). cbn [bind].
  rewrite check_remove_other_op.
  - cbn [bind]. apply check_value_skipped. rewrite Hpresent, Hvalue. reflexivity.
  - rewrite Hop, Hpresent. simpl in Hkind.
    destruct Hkind as [<- | [<- | [<- | []]]]; reflexivity.
Qed.

Lemma C8_falsy_value_skips_validation_witness :
  joi_error (Sample.engine (JStr "") (SJoi "string" Required [] None)
               (strip_allowedOps defaultOptions))
  = Some "value must be a string"
  /\ validateStep (C := Sample.collaborators) Sample.testSchema defaultOptions
       (JObj [("op", JStr "replace"); ("path", JStr "/name"); ("value", JStr "")])
     = Ok {| step_error := None;
             step_value := JObj [("op", JStr "replace"); ("path", JStr "/name");
                                 ("value", JStr "")] |}.
Proof.
  split; [reflexivity |].
  apply (C8_falsy_value_skips_validation Sample.collaborators Sample.testSchema
           defaultOptions
           [("op", JStr "replace"); ("path", JStr "/name"); ("value", JStr "")]
           (SJoi "string" Required [] None) "replace");
    try reflexivity.
  simpl. auto.
Defined.

(** C9. When the [from] pointer of an operation (a copy or a move, or any
    step carrying [from]) resolves to nothing and [allowUnknown] is false,
    the step fails, and the message of the error is built from [step.path]:
    'invalid source ' followed by the target path when that path resolves,
    'invalid path ' followed by it otherwise.  The [from] pointer does not
    occur in the message's construction. *)
Theorem C9_invalid_source_names_target_path :
  forall (C : Collaborators) (s : schema) (options : Options)
         (fields : list (string * jsval)) (rule source : schema),
    jsonpatch_validate [JObj fields] = None ->
    indexOf_found (allowedOps options) (lookup "op" fields) = true ->
    getValidator s (lookup "path" fields) = Ok rule ->
    getValidator s (lookup "from" fields) = Ok source ->
    present source = false ->
    allowUnknown options = false ->
    exists e,
      validateStep s options (JObj fields)
      = Ok {| step_error := Some e; step_value := JNull |}
      /\ message e
         = ((if present rule then "invalid source " else "invalid path ")
            ++ to_string (lookup "path" fields))%string.
Proof.
  intros C s options fields rule source Hshape Hallowed Hrule Hsource Habsent
         Hunknown.
  pose proof (getValidator_renderable _ _ _ Hrule) as Hp.
  rewrite (validateStep_object s options fields rule Hshape Hrule).
  rewrite Hallowed, Hunknown. cbn [negb].
  destruct (present rule) eqn:Hpresent; cbn [negb andb].
  - pose proof (absent_source_has_from s fields rule source Hrule Hsource
                  Hpresent Habsent) as Hfrom.
    rewrite (check_source_from s options fields source Hfrom Hsource).
    rewrite Habsent, Hunknown. cbn [negb andb].
    destruct (fail_object fields
                ("invalid source " ++ to_string (lookup "path" fields)) Hp)
      as (e & -> & Hmsg).
    exists e. split; [reflexivity | exact Hmsg].
  - destruct (fail_object fields
                ("invalid path " ++ to_string (lookup "path" fields)) Hp)
      as (e & -> & Hmsg).
    exists e. split; [reflexivity | exact Hmsg].
Qed.

Lemma C9_invalid_source_names_target_path_witness :
  exists e,
    validateStep (C := Sample.collaborators) Sample.testSchema defaultOptions
      (JObj [("op", JStr "move"); ("from", JStr "/blah");
             ("path", JStr "/description")])
    = Ok {| step_error := Some e; step_value := JNull |}
    /\ message e = "invalid source /description".
Proof.
  apply (C9_invalid_source_names_target_path Sample.collaborators
           Sample.testSchema defaultOptions
           [("op", JStr "move"); ("from", JStr "/blah");
            ("path", JStr "/description")]
           (SJoi "string" Optional [] None) SUndefined);
    reflexivity.
Defined.

(** C1. Take an operation that passes the shape check and the allow-list,
    is not a remove, carries no [from], whose path resolves to a rule and
    whose value is truthy.  When the engine accepts the value, the step
    result is a copy of the operation with [value] replaced by the engine's
    normalized value, and [validate] collects that copy.  When the engine
    rejects the value, the step result carries the error and the value
    [null], and [validate] collects nothing for the operation. *)
Theorem C1_normalized_value_kept_on_success :
  forall (C : Collaborators) (s : schema) (third : third_argument) (cb : bool)
         (fields : list (string * jsval)) (rule : schema),
    let options := effective_options third in
    let result := Joi_validate (lookup "value" fields) rule
                               (strip_allowedOps options) in
    let clean := JObj (set_field "value" (joi_value result) fields) in
    jsonpatch_validate [JObj fields] = None ->
    indexOf_found (allowedOps options) (lookup "op" fields) = true ->
    loose_eq_lit (lookup "op" fields) "remove" = false ->
    truthy (lookup "from" fields) = false ->
    getValidator s (lookup "path" fields) = Ok rule ->
    present rule = true ->
    truthy (lookup "value" fields) = true ->
    match joi_error result with
    | None =>
        validateStep s options (JObj fields)
        = Ok {| step_error := None; step_value := clean |}
        /\ validate (JObj fields) s third cb
           = Ok (deliver (callback_given third cb)
                   {| error := None; value := [clean] |})
    | Some m =>
        exists e,
          message e = Error_toString m
          /\ validateStep s options (JObj fields)
             = Ok {| step_error := Some e; step_value := JNull |}
          /\ validate (JObj fields) s third cb
             = Ok (deliver (callback_given third cb)
                     {| error := Some e; value := [] |})
    end.
Proof.
  intros C s third cb fields rule options result clean Hshape Hallowed Hop
         Hfrom Hrule Hpresent Hvalue.
  pose proof (getValidator_renderable _ _ _ Hrule) as Hp.
  assert (Hstep :
    validateStep s options (JObj fields)
    = match joi_error result with
      | Some m => fail (JObj fields) (Error_toString m)
      | None => pass (set_field "value" (joi_value result) fields)
      end).
  { rewrite (validateStep_object s options fields rule Hshape Hrule).
    rewrite Hallowed, Hpresent. cbn [negb andb].
    rewrite (check_source_no_from s options fields Hfrom). cbn [bind].
    rewrite check_remove_other_op by (rewrite Hop; apply andb_false_r).
    cbn [bind]. unfold check_value. cbn [get bind].
    rewrite Hpresent, Hvalue. reflexivity. }
  destruct (joi_error result) as [m |].
  - destruct (fail_object fields (Error_toString m) Hp) as (e & He & Hmsg).
    rewrite He in Hstep. exists e. split; [exact Hmsg |].
    split; [exact Hstep |].
    rewrite (validate_single C fields s third cb _ Hstep). reflexivity.
  - split; [exact Hstep |].
    rewrite (validate_single C fields s third cb _ Hstep). reflexivity.
Qed.

Module Weight.
Definition rule : schema := SJoi "number" Optional [] None.

Definition add (v : jsval) : list (string * jsval) :=
  [("op", JStr "add"); ("path", JStr "/meta/current/weight"); ("value", v)].
End Weight.

Lemma C1_normalized_value_kept_on_success_witness :
  Sample.run (JObj (Weight.add (JStr "4"))) Omitted
  = Ok (Returned {| error := None; value := [JObj (Weight.add (JNum 4))] |}).
Proof.
  apply (C1_normalized_value_kept_on_success Sample.collaborators
           Sample.testSchema Omitted false (Weight.add (JStr "4")) Weight.rule);
    reflexivity.
Defined.

(** The claim C1 as the specification words it fails on an operation the
    engine rejects: the path resolves to a rule and the operation carries a
    value, yet the step result holds [null] and the value list is empty. *)
Lemma C1_failed_step_is_not_collected :
  getValidator Sample.testSchema (JStr "/meta/current/weight") = Ok Weight.rule
  /\ truthy (JStr "blah") = true
  /\ exists e,
       validateStep (C := Sample.collaborators) Sample.testSchema defaultOptions
         (JObj (Weight.add (JStr "blah")))
       = Ok {| step_error := Some e; step_value := JNull |}
       /\ Sample.run (JObj (Weight.add (JStr "blah"))) Omitted
          = Ok (Returned {| error := Some e; value := [] |}).
Proof.
  split; [reflexivity |]. split; [reflexivity |].
  eexists. split; reflexivity.
Qed.

(** C5. Take an operation that passes the shape check and the allow-list and
    whose path resolves to nothing, with [allowUnknown] set.  The remove
    check and the value validation are skipped.  The block on [from] is not:
    when [from] is truthy it is resolved, and for a move whose source
    resolves to a rule the engine validates an absent value against that
    rule; if the engine rejects it the operation fails with that error.  In
    every other case the operation is returned unchanged with a null
    error. *)
Theorem C5_unknown_target_allowed :
  forall (C : Collaborators) (s : schema) (options : Options)
         (fields : list (string * jsval)) (rule : schema),
    jsonpatch_validate [JObj fields] = None ->
    indexOf_found (allowedOps options) (lookup "op" fields) = true ->
    getValidator s (lookup "path" fields) = Ok rule ->
    present rule = false ->
    allowUnknown options = true ->
    (truthy (lookup "from" fields) = false ->
     validateStep s options (JObj fields) = Ok (passed fields))
    /\ (forall source,
          truthy (lookup "from" fields) = true ->
          getValidator s (lookup "from" fields) = Ok source ->
          match (if present source && loose_eq_lit (lookup "op" fields) "move"
                 then joi_error (Joi_validate JUndefined source
                                              (strip_allowedOps options))
                 else None) with
          | None => validateStep s options (JObj fields) = Ok (passed fields)
          | Some m =>
              exists e,
                validateStep s options (JObj fields) = Ok (failed e)
                /\ message e = Error_toString m
          end).
Proof.
  intros C s options fields rule Hshape Hallowed Hrule Habsent Hunknown.
  pose proof (getValidator_renderable _ _ _ Hrule) as Hp.
  rewrite (validateStep_object s options fields rule Hshape Hrule).
  rewrite Hallowed, Habsent, Hunknown. cbn [negb andb].
  assert (Hrest :
    (early' <- check_remove rule (strip_allowedOps options) (JObj fields) ;;
     match early' with
     | Some r => Ok r
     | None => check_value rule (strip_allowedOps options) (JObj fields) fields
     end) = Ok (passed fields)).
  { rewrite check_remove_other_op by (rewrite Habsent; reflexivity).
    cbn [bind]. apply check_value_skipped. rewrite Habsent. reflexivity. }
  split.
  - intros Hfrom.
    rewrite (check_source_no_from s options fields Hfrom). cbn [bind].
    exact Hrest.
  - intros source Hfrom Hsource.
    rewrite (check_source_from s options fields source Hfrom Hsource).
    rewrite Hunknown, andb_false_r.
    destruct (present source && loose_eq_lit (lookup "op" fields) "move").
    + destruct (joi_error (Joi_validate JUndefined source
                             (strip_allowedOps options))) as [m |].
      * destruct (fail_object fields (Error_toString m) Hp) as (e & -> & Hmsg).
        exists e. split; [reflexivity | exact Hmsg].
      * cbn [bind]. exact Hrest.
    + cbn [bind]. exact Hrest.
Qed.

Module Unknown.
Definition allow : Options :=
  {| abortEarly := true; allowedOps := allowedOps defaultOptions;
     allowUnknown := true; convert := true |}.

Definition remove_blah : list (string * jsval) :=
  [("op", JStr "remove"); ("path", JStr "/blah")].

Definition move_id : list (string * jsval) :=
  [("op", JStr "move"); ("from", JStr "/id"); ("path", JStr "/blah")].
End Unknown.

Lemma C5_unknown_target_allowed_witness :
  validateStep (C := Sample.collaborators) Sample.testSchema Unknown.allow
    (JObj Unknown.remove_blah)
  = Ok (passed Unknown.remove_blah).
Proof.
  apply (proj1 (C5_unknown_target_allowed Sample.collaborators
                  Sample.testSchema Unknown.allow Unknown.remove_blah
                  SUndefined eq_refl eq_refl eq_refl eq_refl eq_refl)).
  reflexivity.
Defined.

(** The claim C5 as the specification words it fails on a move from the
    required [/id] to the unknown [/blah] under [allowUnknown]: the target
    resolves to nothing, yet the source is checked and the operation
    fails. *)
Lemma C5_move_source_is_still_checked :
  getValidator Sample.testSchema (JStr "/blah") = Ok SUndefined
  /\ allowUnknown Unknown.allow = true
  /\ exists e,
       validateStep (C := Sample.collaborators) Sample.testSchema Unknown.allow
         (JObj Unknown.move_id)
       = Ok {| step_error := Some e; step_value := JNull |}
       /\ message e = "ValidationError: value is required".
Proof.
  split; [reflexivity |]. split; [reflexivity |].
  eexists. split; reflexivity.
Qed.

(** C3. Take an operation that passes the shape check and the allow-list and
    carries no truthy value.  If it is a remove without [from] whose path
    resolves to a rule, the engine validates an absent value against that
    rule; if it is a move whose [from] resolves to a source rule (the target
    being resolved, or unknown paths allowed), the engine validates an absent
    value against the source rule.  In both cases the operation fails, with
    the engine's error, exactly when the engine rejects the absent value, and
    is otherwise returned unchanged with a null error. *)
Theorem C3_absent_value_checked :
  forall (C : Collaborators) (s : schema) (options : Options)
         (fields : list (string * jsval)) (rule : schema),
    let absent_against := fun r : schema =>
      joi_error (Joi_validate JUndefined r (strip_allowedOps options)) in
    let decided_by := fun r : schema =>
      match absent_against r with
      | None => validateStep s options (JObj fields) = Ok (passed fields)
      | Some m =>
          exists e,
            validateStep s options (JObj fields) = Ok (failed e)
            /\ message e = Error_toString m
      end in
    jsonpatch_validate [JObj fields] = None ->
    indexOf_found (allowedOps options) (lookup "op" fields) = true ->
    getValidator s (lookup "path" fields) = Ok rule ->
    truthy (lookup "value" fields) = false ->
    (lookup "op" fields = JStr "remove" ->
     truthy (lookup "from" fields) = false ->
     present rule = true ->
     decided_by rule)
    /\ (lookup "op" fields = JStr "move" ->
        truthy (lookup "from" fields) = true ->
        present rule || allowUnknown options = true ->
        forall source,
          getValidator s (lookup "from" fields) = Ok source ->
          present source = true ->
          decided_by source).
Proof.
  intros C s options fields rule absent_against decided_by Hshape Hallowed
         Hrule Hvalue.
  pose proof (getValidator_renderable _ _ _ Hrule) as Hp.
  assert (Hfail : forall m,
    exists e, fail (JObj fields) (Error_toString m) = Ok (failed e)
              /\ message e = Error_toString m)
    by (intros m; apply fail_object; exact Hp).
  assert (Hlast :
    check_value rule (strip_allowedOps options) (JObj fields) fields
    = Ok (passed fields))
    by (apply check_value_skipped; rewrite Hvalue; apply andb_false_r).
  subst decided_by absent_against. cbn beta.
  rewrite (validateStep_object s options fields rule Hshape Hrule).
  rewrite Hallowed. cbn [negb].
  split.
  - intros Hop Hfrom Hpresent.
    rewrite Hpresent. cbn [negb andb].
    rewrite (check_source_no_from s options fields Hfrom). cbn [bind].
    unfold check_remove. cbn [get bind]. rewrite Hop, Hpresent. cbn.
    destruct (joi_error (Joi_validate JUndefined rule
                           (strip_allowedOps options))) as [m |].
    + destruct (Hfail m) as (e & -> & Hmsg).
      exists e. split; [reflexivity | exact Hmsg].
    + cbn [bind]. exact Hlast.
  - intros Hop Hfrom Hknown source Hsource Hpresent.
    assert (Hgate : negb (present rule) && negb (allowUnknown options) = false)
      by (destruct (present rule), (allowUnknown options);
          simpl in *; congruence).
    rewrite Hgate.
    rewrite (check_source_from s options fields source Hfrom Hsource).
    rewrite Hop, Hpresent. cbn [negb andb].
    change (loose_eq_lit (JStr "move") "move") with true. cbn iota.
    destruct (joi_error (Joi_validate JUndefined source
                           (strip_allowedOps options))) as [m |].
    + destruct (Hfail m) as (e & -> & Hmsg).
      exists e. split; [reflexivity | exact Hmsg].
    + cbn [bind].
      rewrite check_remove_other_op by (rewrite Hop; apply andb_false_r).
      cbn [bind]. exact Hlast.
Qed.

Lemma C3_absent_value_checked_witness :
  validateStep (C := Sample.collaborators) Sample.testSchema defaultOptions
    (JObj (Sample.operation "remove" "/description"))
  = Ok (passed (Sample.operation "remove" "/description"))
  /\ (exists e,
        validateStep (C := Sample.collaborators) Sample.testSchema
          defaultOptions (JObj (Sample.operation "remove" "/id"))
        = Ok (failed e)
        /\ message e = "ValidationError: value is required")
  /\ (exists e,
        validateStep (C := Sample.collaborators) Sample.testSchema
          defaultOptions
          (JObj [("op", JStr "move"); ("from", JStr "/id");
                 ("path", JStr "/description")])
        = Ok (failed e)
        /\ message e = "ValidationError: value is required").
Proof.
  split; [| split].
  - apply (proj1 (C3_absent_value_checked Sample.collaborators
                    Sample.testSchema defaultOptions
                    (Sample.operation "remove" "/description")
                    (SJoi "string" Optional [] None)
                    eq_refl eq_refl eq_refl eq_refl));
      reflexivity.
  - apply (proj1 (C3_absent_value_checked Sample.collaborators
                    Sample.testSchema defaultOptions
                    (Sample.operation "remove" "/id")
                    (SJoi "string" Required [] None)
                    eq_refl eq_refl eq_refl eq_refl));
      reflexivity.
  - apply (proj2 (C3_absent_value_checked Sample.collaborators
                    Sample.testSchema defaultOptions
                    [("op", JStr "move"); ("from", JStr "/id");
                     ("path", JStr "/description")]
                    (SJoi "string" Optional [] None)
                    eq_refl eq_refl eq_refl eq_refl)
             eq_refl eq_refl eq_refl (SJoi "string" Required [] None));
      reflexivity.
Defined.

(** C6. The test suite's step
    [{op: 'add', path: '/meta/current/weight', value: 'blah'}] is rejected by
    the engine, and the error built from it has the path
    ['meta/current/weight']: [replace('/', '.')] rewrites the first slash
    only, the one [substr(1)] then drops, so the path is not the dotted
    ['meta.current.weight']. *)
Theorem C6_nested_path_keeps_slashes :
  exists e,
    Sample.run (JObj (Weight.add (JStr "blah"))) Omitted
    = Ok (Returned {| error := Some e; value := [] |})
    /\ new_ValidationError (message e)
         (StepDetails (JObj (Weight.add (JStr "blah")))) = Ok e
    /\ error_path e = JStr "meta/current/weight"
    /\ error_path e <> JStr "meta.current.weight".
Proof.
  eexists. split; [reflexivity |]. split; [reflexivity |].
  split; [reflexivity | discriminate].
Qed.

(** ** The test suite, run on the sample collaborators *)

Module Tests.
Import Sample.

Definition only_add : third_argument :=
  WithOptions {| user_abortEarly := None; user_allowedOps := Some ["add"];
                 user_allowUnknown := None; user_convert := None |}.

Example validates_deep_path :
  run (JObj (operation "remove" "/meta/current/weight")) Omitted
  = Ok (Returned
          {| error := None;
             value := [JObj (operation "remove" "/meta/current/weight")] |}).
Proof. reflexivity. Qed.

Example rejects_unknown_path :
  run (JObj (operation "remove" "/blah")) Omitted
  = Ok (Returned
          {| error := Some Batch.invalid_path; value := [] |}).
Proof. reflexivity. Qed.

Example rejects_empty_patch :
  run (JArr []) Omitted
  = Ok (Returned {| error := Some (bare_error "empty patch"); value := [] |}).
Proof. reflexivity. Qed.

Example allowedOps_restricts_operations :
  exists e,
    run (JObj [("op", JStr "test"); ("path", JStr ""); ("value", JStr "")])
        only_add
    = Ok (Returned {| error := Some e; value := [] |})
    /\ message e = "disallowed op test".
Proof. eexists. split; reflexivity. Qed.

Example accepts_a_callback :
  validate (C := collaborators)
           (JObj (operation "add" "/description" ++ [("value", JStr "blah")]))
           testSchema WithCallback false
  = Ok (CalledBack
          {| error := None;
             value := [JObj (operation "add" "/description"
                             ++ [("value", JStr "blah")])] |}).
Proof. reflexivity. Qed.

(** Below a scalar rule there is no children table to search: the walk
    throws instead of answering. *)
Example descending_below_a_scalar_rule_throws :
  getValidator testSchema (JStr "/description/x")
  = Throw "TypeError: cannot read property find".
Proof. reflexivity. Qed.

End Tests.

(** * Further properties of the resolver *)

(** Does the character occur in the string? *)
Fixpoint occurs (c : ascii) (s : string) : bool :=
  match s with
  | EmptyString => false
  | String d rest => Ascii.eqb d c || occurs c rest
  end.

Lemma split_without_separator (sep : ascii) (s : string) :
  occurs sep s = false -> split sep s = [s].
Proof.
  induction s as [| c rest IH]; simpl; [reflexivity |].
  destruct (Ascii.eqb c sep); simpl; [discriminate |].
  intros Hrest. rewrite (IH Hrest). reflexivity.
Qed.

(** Joining the pieces of a split gives the string back. *)
Lemma join_cons (sep a b : string) (l : list string) :
  join sep (a :: b :: l) = (a ++ sep ++ join sep (b :: l))%string.
Proof. reflexivity. Qed.

Lemma join_split (sep : ascii) (s : string) :
  join (String sep EmptyString) (split sep s) = s.
Proof.
  induction s as [| c rest IH]; [reflexivity |].
  simpl split. pose proof (split_nonempty sep rest) as Hne.
  destruct (Ascii.eqb_spec c sep) as [-> | Hc];
    destruct (split sep rest) as [| piece pieces]; try contradiction.
  - rewrite join_cons, IH. reflexivity.
  - destruct pieces as [| piece' pieces].
    + simpl in *. rewrite IH. reflexivity.
    + rewrite join_cons. rewrite join_cons in IH. rewrite <- IH. reflexivity.
Qed.

Lemma getValidator_absent_cursor (r : schema) (pointer : string) :
  present r = false -> getValidator r (JStr pointer) = Ok r.
Proof.
  intros Hr. unfold getValidator. simpl. apply walk_absent. exact Hr.
Qed.

Lemma getValidator_compose (s : schema) (prefix rest : string) :
  getValidator s (JStr (prefix ++ String "/" rest))
  = r <- getValidator s (JStr prefix) ;; getValidator r (JStr (String "/" rest)).
Proof.
  unfold getValidator. rewrite pointer_parts_extend.
  cbn [bind pointer_parts]. rewrite walk_app.
  destruct (walk s (tl (split "/" prefix))) as [r | e]; reflexivity.
Qed.

(** X1. Resolving [prefix/rest] is resolving [prefix] and then resolving
    [/rest] from the node found: pointers compose, and a throw while
    resolving the prefix is the throw of the whole. *)
Theorem X1_pointer_composition :
  forall (s : schema) (prefix rest : string),
    getValidator s (JStr (prefix ++ String "/" rest))
    = match getValidator s (JStr prefix) with
      | Ok r => getValidator r (JStr (String "/" rest))
      | Throw e => Throw e
      end.
Proof.
  intros s prefix rest. rewrite getValidator_compose.
  destruct (getValidator s (JStr prefix)); reflexivity.
Qed.

(** X2. Whatever stands before the first slash of a pointer is dropped: a
    pointer without slash resolves to the whole schema, and [a/rest] resolves
    like [/rest]. *)
Theorem X2_first_segment_ignored :
  forall (s : schema) (a rest : string),
    occurs "/" a = false ->
    getValidator s (JStr a) = Ok s
    /\ getValidator s (JStr (a ++ String "/" rest))
       = getValidator s (JStr (String "/" rest)).
Proof.
  intros s a rest Ha. split.
  - unfold getValidator. simpl. rewrite (split_without_separator "/" a Ha).
    reflexivity.
  - unfold getValidator. rewrite pointer_parts_extend.
    rewrite (split_without_separator "/" a Ha). reflexivity.
Qed.

Lemma X2_first_segment_ignored_witness :
  getValidator Sample.testSchema (JStr "name") = Ok Sample.testSchema
  /\ getValidator Sample.testSchema (JStr "name/id")
     = getValidator Sample.testSchema (JStr "/id").
Proof.
  apply (X2_first_segment_ignored Sample.testSchema "name" "id").
  reflexivity.
Defined.

(** X3. Absence propagates: when a pointer resolves to [null] or
    [undefined], every longer pointer resolves to that same value, without
    throwing. *)
Theorem X3_absent_prefix_propagates :
  forall (s r : schema) (prefix rest : string),
    getValidator s (JStr prefix) = Ok r ->
    present r = false ->
    getValidator s (JStr (prefix ++ String "/" rest)) = Ok r.
Proof.
  intros s r prefix rest Hprefix Hr.
  rewrite getValidator_compose, Hprefix. cbn [bind].
  apply getValidator_absent_cursor. exact Hr.
Qed.

Lemma X3_absent_prefix_propagates_witness :
  getValidator Sample.testSchema (JStr "/meta/died/year") = Ok SNull
  /\ getValidator Sample.testSchema (JStr "/blah/x/y") = Ok SUndefined.
Proof.
  split.
  - apply (X3_absent_prefix_propagates Sample.testSchema SNull "/meta/died"
             "year"); reflexivity.
  - apply (X3_absent_prefix_propagates Sample.testSchema SUndefined "/blah"
             "x/y"); reflexivity.
Defined.

(** X4. A truthy pointer that is not a string makes the resolver throw: it
    has no [split]. *)
Theorem X4_non_string_pointer_throws :
  forall (s : schema) (pointer : jsval),
    truthy pointer = true ->
    (forall str, pointer <> JStr str) ->
    getValidator s pointer = Throw "TypeError: split is not a function".
Proof.
  intros s pointer Ht Hns. unfold getValidator, pointer_parts.
  destruct pointer; try discriminate; try (rewrite Ht; reflexivity);
    try reflexivity.
  exfalso. apply (Hns s0). reflexivity.
Qed.

Lemma X4_non_string_pointer_throws_witness :
  getValidator Sample.testSchema (JNum 5)
  = Throw "TypeError: split is not a function".
Proof.
  apply (X4_non_string_pointer_throws Sample.testSchema (JNum 5));
    [reflexivity | discriminate].
Defined.

(** X5. Below a Joi rule that is not an array and has no children table (a
    scalar rule, an object rule without keys) there is nothing to search:
    every longer pointer throws. *)
Theorem X5_below_childless_rule_throws :
  forall (s : schema) (prefix rest type : string) (flags : presence)
         (items : list schema),
    getValidator s (JStr prefix) = Ok (SJoi type flags items None) ->
    String.eqb type "array" = false ->
    getValidator s (JStr (prefix ++ String "/" rest))
    = Throw "TypeError: cannot read property find".
Proof.
  intros s prefix rest type flags items Hprefix Htype.
  rewrite getValidator_compose, Hprefix. cbn [bind].
  unfold getValidator. cbn [pointer_parts split bind].
  change (Ascii.eqb "/" "/") with true. cbn [tl].
  pose proof (split_nonempty "/" rest) as Hne.
  destruct (split "/" rest) as [| key more]; [contradiction |].
  simpl. rewrite Htype. reflexivity.
Qed.

Lemma X5_below_childless_rule_throws_witness :
  getValidator Sample.testSchema (JStr "/meta/born/year")
  = Throw "TypeError: cannot read property find".
Proof.
  apply (X5_below_childless_rule_throws Sample.testSchema "/meta/born" "year"
           "date" Required []); reflexivity.
Defined.



Module Shapes.
End Shapes.


(** X7. For a pointer that begins with a slash, the path of the error is
    made of exactly the segments the resolver walks, joined by slashes. *)
Theorem X7_error_path_lists_the_segments :
  forall (pointer : string),
    exists parts,
      pointer_parts (JStr (String "/" pointer)) = Ok parts
      /\ render_path (JStr (String "/" pointer)) = Ok (JStr (join "/" parts)).
Proof.
  intros pointer. exists (split "/" pointer). split; [reflexivity |].
  rewrite join_split. reflexivity.
Qed.

(** * Further properties of the error class *)

Lemma new_ValidationError_object_throws (msg : string)
      (fields : list (string * jsval)) :
  truthy (lookup "path" fields) = true ->
  (forall str, lookup "path" fields <> JStr str) ->
  new_ValidationError msg (StepDetails (JObj fields))
  = Throw "TypeError: replace is not a function".
Proof.
  intros Ht Hns. unfold new_ValidationError, addProp. simpl.
  rewrite Ht. unfold render_path. rewrite Ht.
  destruct (lookup "path" fields); try reflexivity.
  exfalso. apply (Hns s). reflexivity.
Qed.

(** An error built from a step, or from nothing, is never an aggregate. *)
Definition single (e : ValidationError) : Prop :=
  forall l, error_errors e <> ErrorsList l.

Lemma new_ValidationError_built (msg : string) (d : details)
      (e : ValidationError) :
  new_ValidationError msg d = Ok e ->
  message e = msg /\ ((forall l, d <> SubErrors l) -> single e).
Proof.
  unfold new_ValidationError, addProp, single. intros H.
  destruct d as [| step | errs].
  - injection H as <-. split; [reflexivity | discriminate].
  - destruct step; simpl in H;
      try (injection H as <-; split; [reflexivity | discriminate]).
    + destruct b; simpl in H; injection H as <-;
        (split; [reflexivity | discriminate]).
    + destruct (Z.eqb n 0); simpl in H; injection H as <-;
        (split; [reflexivity | discriminate]).
    + destruct (String.eqb s ""); simpl in H; injection H as <-;
        (split; [reflexivity | discriminate]).
    + destruct (render_path _) as [p |]; simpl in H; [| discriminate].
      injection H as <-. split; [reflexivity |].
      intros _ l. simpl. destruct (truthy _); discriminate.
  - injection H as <-. split; [reflexivity |].
    intros Hd. exfalso. apply (Hd errs). reflexivity.
Qed.

(** X8. The constructor throws on exactly one kind of step: an object whose
    [path] is truthy and not a string (it has no [replace]).  Built from any
    other value it returns an error. *)
Theorem X8_constructor_throws_on_non_string_path :
  forall (msg : string) (step : jsval),
    (exists exn, new_ValidationError msg (StepDetails step) = Throw exn)
    <-> (exists fields,
           step = JObj fields
           /\ truthy (lookup "path" fields) = true
           /\ forall str, lookup "path" fields <> JStr str).
Proof.
  intros msg step. split.
  - intros [exn Hthrow].
    destruct step as [| | b | n | str | l | fields];
      try (unfold new_ValidationError in Hthrow; simpl in Hthrow;
           discriminate Hthrow).
    + destruct b; discriminate Hthrow.
    + unfold new_ValidationError in Hthrow. simpl in Hthrow.
      destruct (Z.eqb n 0); discriminate Hthrow.
    + unfold new_ValidationError in Hthrow. simpl in Hthrow.
      destruct (String.eqb str ""); discriminate Hthrow.
    + exists fields. split; [reflexivity |].
      destruct (truthy (lookup "path" fields)) eqn:Ht.
      * split; [reflexivity |]. intros str Hstr.
        assert (Hp : renderable (lookup "path" fields))
          by (rewrite Hstr; exact I).
        destruct (new_ValidationError_object msg fields Hp) as (p & Hok & _).
        congruence.
      * assert (Hp : renderable (lookup "path" fields))
          by (destruct (lookup "path" fields); simpl in *; auto).
        destruct (new_ValidationError_object msg fields Hp) as (p & Hok & _).
        congruence.
  - intros (fields & -> & Ht & Hns). eexists.
    apply new_ValidationError_object_throws; assumption.
Qed.

(** * Further properties of the operation validator *)

(** What [validateStep] returns: no error and an object, or an error that is
    not an aggregate and the value [null]. *)
Definition sound (r : StepResult) : Prop :=
  (step_error r = None /\ exists clean, step_value r = JObj clean)
  \/ (exists e, step_error r = Some e /\ step_value r = JNull /\ single e).

Ltac open_bind H :=
  match type of H with
  | context [bind ?m _] =>
      let E := fresh "E" in
      destruct m eqn:E; cbn [bind] in H; try discriminate H
  | context [if ?b then _ else _] =>
      destruct b; try discriminate H
  | context [match ?x with _ => _ end] =>
      destruct x; try discriminate H
  end.

Section Soundness.
Context {C : Collaborators}.

Lemma fail_sound (step : jsval) (msg : string) (r : StepResult) :
  fail step msg = Ok r ->
  exists e, r = failed e /\ message e = msg /\ single e.
Proof.
  unfold fail. intros H.
  destruct (new_ValidationError msg (StepDetails step)) as [e |] eqn:He;
    [| discriminate].
  cbn [bind] in H. injection H as <-.
  destruct (new_ValidationError_built _ _ _ He) as [Hmsg Hsingle].
  exists e. split; [reflexivity |]. split; [exact Hmsg |].
  apply Hsingle. discriminate.
Qed.

Lemma failed_sound (step : jsval) (msg : string) (r : StepResult) :
  fail step msg = Ok r -> sound r.
Proof.
  intros H. destruct (fail_sound _ _ _ H) as (e & -> & _ & Hsingle).
  right. exists e. repeat split. exact Hsingle.
Qed.

Lemma check_source_sound (s : schema) (opts : JoiOptions) (step : jsval)
      (r : StepResult) :
  check_source s opts step = Ok (Some r) -> sound r.
Proof.
  unfold check_source. intros H.
  repeat open_bind H;
    try (injection H as <-; eapply failed_sound; eassumption).
Qed.

Lemma check_remove_sound (rule : schema) (opts : JoiOptions) (step : jsval)
      (r : StepResult) :
  check_remove rule opts step = Ok (Some r) -> sound r.
Proof.
  unfold check_remove. intros H.
  repeat open_bind H;
    try (injection H as <-; eapply failed_sound; eassumption).
Qed.

Lemma check_value_sound (rule : schema) (opts : JoiOptions) (step : jsval)
      (clean : list (string * jsval)) (r : StepResult) :
  check_value rule opts step clean = Ok r -> sound r.
Proof.
  unfold check_value, pass. intros H.
  repeat open_bind H;
    try (eapply failed_sound; eassumption);
    try (injection H as <-; left; split; [reflexivity | eexists; reflexivity]).
Qed.

Lemma validateStep_sound (s : schema) (options : Options) (step : jsval)
      (r : StepResult) :
  validateStep s options step = Ok r -> sound r.
Proof.
  unfold validateStep. intros H.
  destruct (jsonpatch_validate [step]) as [m |].
  - cbn [new_ValidationError bind] in H. eapply failed_sound; eassumption.
  - destruct (get step "path") as [path |]; cbn [bind] in H; [| discriminate].
    destruct (getValidator s path) as [rule |]; cbn [bind] in H;
      [| discriminate].
    destruct (get step "op") as [op |]; cbn [bind] in H; [| discriminate].
    destruct (negb (indexOf_found (allowedOps options) op));
      [eapply failed_sound; eassumption |].
    destruct (negb (present rule)
              && negb (joi_allowUnknown (strip_allowedOps options)));
      [eapply failed_sound; eassumption |].
    destruct (check_source s (strip_allowedOps options) step)
      as [[early |] |] eqn:Hsource; cbn [bind] in H; [| | discriminate].
    + injection H as <-. eapply check_source_sound; eassumption.
    + destruct (check_remove rule (strip_allowedOps options) step)
        as [[early |] |] eqn:Hremove; cbn [bind] in H; [| | discriminate].
      * injection H as <-. eapply check_remove_sound; eassumption.
      * eapply check_value_sound; eassumption.
Qed.

End Soundness.

(** X9. Whenever [validateStep] returns, its result holds either a null
    error and an object (the normalized operation), or an error and the
    value [null]: never both, never neither.  The error is never an
    aggregate of sub-errors. *)
Theorem X9_step_result_error_or_value :
  forall (C : Collaborators) (s : schema) (options : Options) (step : jsval)
         (r : StepResult),
    validateStep s options step = Ok r ->
    (step_error r = None /\ exists clean, step_value r = JObj clean)
    \/ (exists e,
          step_error r = Some e /\ step_value r = JNull
          /\ forall l, error_errors e <> ErrorsList l).
Proof.
  intros C s options step r H. exact (validateStep_sound s options step r H).
Qed.

Lemma X9_step_result_error_or_value_witness :
  step_error (failed Batch.invalid_path) = Some Batch.invalid_path
  /\ step_value (failed Batch.invalid_path) = JNull.
Proof.
  destruct (X9_step_result_error_or_value Sample.collaborators
              Sample.testSchema defaultOptions
              (JObj (Sample.operation "remove" "/blah"))
              (failed Batch.invalid_path) eq_refl)
    as [[Hnone _] | (e & He & Hvalue & _)].
  - discriminate Hnone.
  - split; [reflexivity | exact Hvalue].
Defined.

Lemma lookup_set_field_same (k : string) (v : jsval)
      (fs : list (string * jsval)) :
  lookup k (set_field k v fs) = v.
Proof.
  induction fs as [| [k' w] fs IH]; simpl.
  - rewrite String.eqb_refl. reflexivity.
  - destruct (String.eqb k' k) eqn:Hk; simpl; rewrite Hk; [reflexivity | exact IH].
Qed.

Lemma lookup_set_field_other (k k' : string) (v : jsval)
      (fs : list (string * jsval)) :
  String.eqb k k' = false ->
  lookup k' (set_field k v fs) = lookup k' fs.
Proof.
  intros Hkk'. induction fs as [| [k0 w] fs IH]; simpl.
  - rewrite Hkk'. reflexivity.
  - destruct (String.eqb k0 k) eqn:Hk; simpl.
    + apply String.eqb_eq in Hk. subst k0. rewrite Hkk'. reflexivity.
    + destruct (String.eqb k0 k'); [reflexivity | exact IH].
Qed.

Lemma set_field_twice (k : string) (v : jsval) (fs : list (string * jsval)) :
  set_field k v (set_field k v fs) = set_field k v fs.
Proof.
  induction fs as [| [k' w] fs IH]; simpl.
  - rewrite String.eqb_refl. reflexivity.
  - destruct (String.eqb k' k) eqn:Hk; simpl; rewrite Hk;
      [reflexivity | rewrite IH; reflexivity].
Qed.

Section Stages.
Context {C : Collaborators}.
Variables (s : schema) (options : Options) (fields : list (string * jsval)).

(** An operation that passes the shape check and the allow-list, is not a
    remove and carries no [from] goes straight to the value validation. *)
Lemma validateStep_reaches_value (rule : schema) :
  jsonpatch_validate [JObj fields] = None ->
  indexOf_found (allowedOps options) (lookup "op" fields) = true ->
  loose_eq_lit (lookup "op" fields) "remove" = false ->
  truthy (lookup "from" fields) = false ->
  getValidator s (lookup "path" fields) = Ok rule ->
  present rule || allowUnknown options = true ->
  validateStep s options (JObj fields)
  = check_value rule (strip_allowedOps options) (JObj fields) fields.
Proof.
  intros Hshape Hallowed Hop Hfrom Hrule Hknown.
  rewrite (validateStep_object s options fields rule Hshape Hrule).
  rewrite Hallowed. cbn [negb].
  assert (Hgate : negb (present rule) && negb (allowUnknown options) = false)
    by (destruct (present rule), (allowUnknown options);
        simpl in *; congruence).
  rewrite Hgate.
  rewrite (check_source_no_from s options fields Hfrom). cbn [bind].
  rewrite check_remove_other_op by (rewrite Hop; apply andb_false_r).
  reflexivity.
Qed.

End Stages.

(** X10. The allow-list is checked before the path: an operation that passes
    the shape check and whose [op] is not among [allowedOps] fails with
    'disallowed op ' followed by the op, whether its path resolves to a rule
    or to nothing, and whatever the engine would say. *)
Theorem X10_disallowed_op_fails_first :
  forall (C : Collaborators) (s : schema) (options : Options)
         (fields : list (string * jsval)) (rule : schema),
    jsonpatch_validate [JObj fields] = None ->
    getValidator s (lookup "path" fields) = Ok rule ->
    indexOf_found (allowedOps options) (lookup "op" fields) = false ->
    exists e,
      validateStep s options (JObj fields) = Ok (failed e)
      /\ message e = ("disallowed op " ++ to_string (lookup "op" fields))%string.
Proof.
  intros C s options fields rule Hshape Hrule Hallowed.
  rewrite (validateStep_object s options fields rule Hshape Hrule).
  rewrite Hallowed. cbn [negb].
  apply fail_object. exact (getValidator_renderable _ _ _ Hrule).
Qed.

Module Restricted.
Definition only_add : Options :=
  {| abortEarly := true; allowedOps := ["add"]; allowUnknown := false;
     convert := true |}.
End Restricted.

Lemma X10_disallowed_op_fails_first_witness :
  exists e,
    validateStep (C := Sample.collaborators) Sample.testSchema
      Restricted.only_add (JObj (Sample.operation "remove" "/blah"))
    = Ok (failed e)
    /\ message e = "disallowed op remove".
Proof.
  apply (X10_disallowed_op_fails_first Sample.collaborators Sample.testSchema
           Restricted.only_add (Sample.operation "remove" "/blah") SUndefined);
    reflexivity.
Defined.

(** X11. An allowed operation that passes the shape check and whose path
    resolves to nothing fails, when [allowUnknown] is false, with
    'invalid path ' followed by the path; the engine is not consulted. *)
Theorem X11_unknown_path_fails :
  forall (C : Collaborators) (s : schema) (options : Options)
         (fields : list (string * jsval)) (rule : schema),
    jsonpatch_validate [JObj fields] = None ->
    indexOf_found (allowedOps options) (lookup "op" fields) = true ->
    getValidator s (lookup "path" fields) = Ok rule ->
    present rule = false ->
    allowUnknown options = false ->
    exists e,
      validateStep s options (JObj fields) = Ok (failed e)
      /\ message e = ("invalid path " ++ to_string (lookup "path" fields))%string.
Proof.
  intros C s options fields rule Hshape Hallowed Hrule Habsent Hunknown.
  rewrite (validateStep_object s options fields rule Hshape Hrule).
  rewrite Hallowed, Habsent, Hunknown. cbn [negb andb].
  apply fail_object. exact (getValidator_renderable _ _ _ Hrule).
Qed.

Lemma X11_unknown_path_fails_witness :
  exists e,
    validateStep (C := Sample.collaborators) Sample.testSchema defaultOptions
      (JObj (Sample.operation "remove" "/blah"))
    = Ok (failed e)
    /\ message e = "invalid path /blah".
Proof.
  apply (X11_unknown_path_fails Sample.collaborators Sample.testSchema
           defaultOptions (Sample.operation "remove" "/blah") SUndefined);
    reflexivity.
Defined.

(** X12. When the shape check rejects an object whose path is a string or
    falsy, the step fails with the shape check's message behind the prefix
    of the error class, whatever the schema and the options are: neither the
    resolver nor the engine is consulted. *)
Theorem X12_shape_failure :
  forall (C : Collaborators) (s : schema) (options : Options)
         (fields : list (string * jsval)) (m : string),
    jsonpatch_validate [JObj fields] = Some m ->
    renderable (lookup "path" fields) ->
    exists e,
      validateStep s options (JObj fields) = Ok (failed e)
      /\ message e = Error_toString m.
Proof.
  intros C s options fields m Hshape Hp.
  unfold validateStep. rewrite Hshape. cbn [new_ValidationError bind message].
  apply fail_object. exact Hp.
Qed.

Lemma X12_shape_failure_witness :
  exists e,
    validateStep (C := Sample.collaborators) Sample.testSchema defaultOptions
      (JObj [("op", JStr "add"); ("path", JStr "/description/x")])
    = Ok (failed e)
    /\ message e
       = "ValidationError: Operation `value` property is not present".
Proof.
  apply (X12_shape_failure Sample.collaborators Sample.testSchema
           defaultOptions [("op", JStr "add"); ("path", JStr "/description/x")]
           "Operation `value` property is not present");
    [reflexivity | exact I].
Defined.

(** X13. An object whose [path] is truthy and not a string makes
    [validateStep] throw, whatever the collaborators answer: if the shape
    check rejects it the error constructor throws, and if the shape check
    lets it through the resolver throws. *)
Theorem X13_non_string_path_throws :
  forall (C : Collaborators) (s : schema) (options : Options)
         (fields : list (string * jsval)),
    truthy (lookup "path" fields) = true ->
    (forall str, lookup "path" fields <> JStr str) ->
    exists exn, validateStep s options (JObj fields) = Throw exn.
Proof.
  intros C s options fields Ht Hns. unfold validateStep.
  destruct (jsonpatch_validate [JObj fields]) as [m |].
  - cbn [new_ValidationError bind message]. unfold fail.
    rewrite (new_ValidationError_object_throws _ fields Ht Hns).
    eexists. reflexivity.
  - cbn [get bind].
    unfold getValidator, pointer_parts.
    destruct (lookup "path" fields) eqn:Hpath; try discriminate Ht;
      try (rewrite Ht; eexists; reflexivity);
      try (eexists; reflexivity).
    exfalso. apply (Hns s0). reflexivity.
Qed.

Lemma X13_non_string_path_throws_witness :
  exists exn,
    validateStep (C := Sample.collaborators) Sample.testSchema defaultOptions
      (JObj [("op", JStr "remove"); ("path", JNum 5)])
    = Throw exn.
Proof.
  apply (X13_non_string_path_throws Sample.collaborators Sample.testSchema
           defaultOptions [("op", JStr "remove"); ("path", JNum 5)]);
    [reflexivity | discriminate].
Defined.

(** X14. Normalization is idempotent when the engine is: if the engine
    accepts the value of an operation and, given its own normalized value
    again, returns it unchanged, then validating the normalized operation a
    second time returns that same operation. *)
Theorem X14_normalization_idempotent :
  forall (C : Collaborators) (s : schema) (options : Options)
         (fields : list (string * jsval)) (rule : schema),
    let opts := strip_allowedOps options in
    let result := Joi_validate (lookup "value" fields) rule opts in
    let clean := set_field "value" (joi_value result) fields in
    jsonpatch_validate [JObj fields] = None ->
    jsonpatch_validate [JObj clean] = None ->
    indexOf_found (allowedOps options) (lookup "op" fields) = true ->
    loose_eq_lit (lookup "op" fields) "remove" = false ->
    truthy (lookup "from" fields) = false ->
    getValidator s (lookup "path" fields) = Ok rule ->
    present rule = true ->
    truthy (lookup "value" fields) = true ->
    joi_error result = None ->
    Joi_validate (joi_value result) rule opts
    = {| joi_value := joi_value result; joi_error := None |} ->
    validateStep s options (JObj fields) = Ok (passed clean)
    /\ validateStep s options (JObj clean) = Ok (passed clean).
Proof.
  intros C s options fields rule opts result clean Hshape Hshape' Hallowed
         Hop Hfrom Hrule Hpresent Hvalue Haccept Hfixed.
  assert (Hsame : forall k, String.eqb "value" k = false ->
                            lookup k clean = lookup k fields)
    by (intros k Hk; apply lookup_set_field_other; exact Hk).
  split.
  - rewrite (validateStep_reaches_value s options fields rule Hshape Hallowed
               Hop Hfrom Hrule) by (rewrite Hpresent; reflexivity).
    unfold check_value. cbn [get bind]. rewrite Hpresent, Hvalue. cbn [andb].
    fold opts. fold result. rewrite Haccept. reflexivity.
  - rewrite (validateStep_reaches_value s options clean rule Hshape');
      rewrite ?Hsame by reflexivity; try assumption;
      [| rewrite Hpresent; reflexivity].
    unfold check_value. cbn [get bind]. rewrite Hpresent. cbn [andb].
    assert (Hnew : lookup "value" clean = joi_value result)
      by apply lookup_set_field_same.
    rewrite Hnew.
    destruct (truthy (joi_value result)); [| reflexivity].
    fold opts. rewrite Hfixed. cbn [joi_value joi_error].
    unfold clean. rewrite set_field_twice. reflexivity.
Qed.

Lemma X14_normalization_idempotent_witness :
  validateStep (C := Sample.collaborators) Sample.testSchema defaultOptions
    (JObj (Weight.add (JStr "4")))
  = Ok (passed (Weight.add (JNum 4)))
  /\ validateStep (C := Sample.collaborators) Sample.testSchema defaultOptions
       (JObj (Weight.add (JNum 4)))
     = Ok (passed (Weight.add (JNum 4))).
Proof.
  apply (X14_normalization_idempotent Sample.collaborators Sample.testSchema
           defaultOptions (Weight.add (JStr "4")) Weight.rule);
    reflexivity.
Defined.

(** X15. A copy is never checked against a rule: an allowed copy that passes
    the shape check, carries no truthy value, and whose two pointers resolve
    to rules is returned unchanged, for every engine.  In particular the
    rules of the source and of the target are not compared. *)
Theorem X15_copy_consults_no_rule :
  forall (C : Collaborators) (s : schema) (options : Options)
         (fields : list (string * jsval)) (rule source : schema),
    jsonpatch_validate [JObj fields] = None ->
    lookup "op" fields = JStr "copy" ->
    indexOf_found (allowedOps options) (JStr "copy") = true ->
    truthy (lookup "from" fields) = true ->
    truthy (lookup "value" fields) = false ->
    getValidator s (lookup "path" fields) = Ok rule ->
    getValidator s (lookup "from" fields) = Ok source ->
    present rule = true ->
    present source = true ->
    validateStep s options (JObj fields) = Ok (passed fields).
Proof.
  intros C s options fields rule source Hshape Hop Hallowed Hfrom Hvalue Hrule
         Hsource Hpresent Hpresent'.
  rewrite (validateStep_object s options fields rule Hshape Hrule).
  rewrite Hop, Hallowed, Hpresent. cbn [negb andb].
  rewrite (check_source_from s options fields source Hfrom Hsource).
  rewrite Hop, Hpresent'. cbn [negb andb].
  change (loose_eq_lit (JStr "copy") "move") with false. cbn [bind].
  rewrite check_remove_other_op by (rewrite Hop; apply andb_false_r).
  cbn [bind]. apply check_value_skipped. rewrite Hvalue. apply andb_false_r.
Qed.

Module Copy.
(** From the number rule of the weight to the string rule of the name. *)
Definition weight_to_name : list (string * jsval) :=
  [("op", JStr "copy"); ("from", JStr "/meta/current/weight");
   ("path", JStr "/name")].
End Copy.

Lemma X15_copy_consults_no_rule_witness :
  validateStep (C := Sample.collaborators) Sample.testSchema defaultOptions
    (JObj Copy.weight_to_name)
  = Ok (passed Copy.weight_to_name).
Proof.
  apply (X15_copy_consults_no_rule Sample.collaborators Sample.testSchema
           defaultOptions Copy.weight_to_name
           (SJoi "string" Required [] None) (SJoi "number" Optional [] None));
    reflexivity.
Defined.

(** * Further properties of the orchestrator *)

Definition outcome_of (d : delivery) : Outcome :=
  match d with
  | Returned o | CalledBack o => o
  end.

Definition object (v : jsval) : Prop := exists fields, v = JObj fields.

(** The number of errors an outcome reports: the sub-errors of an aggregate,
    one for any other error, none for [null]. *)
Definition error_count (e : option ValidationError) : nat :=
  match e with
  | None => 0
  | Some e =>
      match error_errors e with
      | ErrorsList l => length l
      | _ => 1
      end
  end.

Lemma outcome_of_deliver (cb : bool) (o : Outcome) :
  outcome_of (deliver cb o) = o.
Proof. destruct cb; reflexivity. Qed.

Lemma error_count_aggregate (errors : list ValidationError) :
  Forall single errors -> error_count (aggregate errors) = length errors.
Proof.
  intros Hall. destruct errors as [| e1 [| e2 more]]; try reflexivity.
  simpl. inversion Hall as [| ? ? Hsingle _]; subst.
  unfold single in Hsingle.
  destruct (error_errors e1) as [| v | l]; try reflexivity.
  exfalso. apply (Hsingle l). reflexivity.
Qed.

Section Runs.
Context {C : Collaborators}.
Variables (s : schema) (options : Options).

(** A step that passes: it returns, and without error. *)
Definition passes (step : jsval) (r : StepResult) : Prop :=
  validateStep s options step = Ok r /\ step_error r = None.

Lemma passing_value_truthy (step : jsval) (r : StepResult) :
  passes step r -> truthy (step_value r) = true.
Proof.
  intros [Hstep Herr].
  destruct (validateStep_sound s options step r Hstep)
    as [[_ [clean ->]] | (e & He & _)]; [reflexivity | congruence].
Qed.

Lemma every_passing_prefix (pre : list jsval) (results : list StepResult)
      (rest : list jsval) :
  Forall2 passes pre results ->
  forall sanitized errors,
    every s options (pre ++ rest) sanitized errors
    = every s options rest (sanitized ++ map step_value results) errors.
Proof.
  induction 1 as [| step r pre results Hpass _ IH]; intros sanitized errors.
  - simpl. rewrite app_nil_r. reflexivity.
  - simpl. rewrite (proj1 Hpass). cbn [bind].
    rewrite (proj2 Hpass), (passing_value_truthy step r Hpass).
    rewrite IH, <- app_assoc. reflexivity.
Qed.

Lemma kept_objects (r : StepResult) (sanitized : list jsval) :
  sound r -> Forall object sanitized ->
  Forall object (if truthy (step_value r) then sanitized ++ [step_value r]
                 else sanitized).
Proof.
  intros [[_ [clean Hv]] | (e & _ & Hv & _)] Hall; rewrite Hv; simpl.
  - apply Forall_app. split; [exact Hall |].
    constructor; [exists clean; reflexivity | constructor].
  - exact Hall.
Qed.

Lemma kept_length (r : StepResult) (sanitized : list jsval) :
  sound r ->
  length (if truthy (step_value r) then sanitized ++ [step_value r]
          else sanitized)
  + match step_error r with Some _ => 1 | None => 0 end
  = S (length sanitized).
Proof.
  intros [[He [clean Hv]] | (e & He & Hv & _)]; rewrite He, Hv; simpl.
  - rewrite length_app. simpl. lia.
  - lia.
Qed.

(** What the loop keeps when it returns: objects only, and errors that are
    not aggregates. *)
Lemma every_invariant (steps : list jsval) :
  forall sanitized errors sanitized' errors',
    every s options steps sanitized errors = Ok (sanitized', errors') ->
    Forall object sanitized -> Forall single errors ->
    Forall object sanitized' /\ Forall single errors'.
Proof.
  induction steps as [| step rest IH];
    intros sanitized errors sanitized' errors' H Hobj Hsingle; simpl in H.
  - injection H as <- <-. split; assumption.
  - destruct (validateStep s options step) as [r |] eqn:Hstep;
      cbn [bind] in H; [| discriminate].
    pose proof (validateStep_sound s options step r Hstep) as Hsound.
    pose proof (kept_objects r sanitized Hsound Hobj) as Hkept.
    destruct (step_error r) as [e |] eqn:He.
    + assert (Hsingle' : Forall single (errors ++ [e])).
      { apply Forall_app. split; [exact Hsingle |].
        constructor; [| constructor].
        destruct Hsound as [[Hnone _] | (e' & He' & _ & Hs)]; congruence. }
      destruct (abortEarly options).
      * injection H as <- <-. split; assumption.
      * exact (IH _ _ _ _ H Hkept Hsingle').
    + exact (IH _ _ _ _ H Hkept Hsingle).
Qed.

(** Without [abortEarly] every step lands in exactly one accumulator. *)
Lemma every_count (steps : list jsval) :
  abortEarly options = false ->
  forall sanitized errors sanitized' errors',
    every s options steps sanitized errors = Ok (sanitized', errors') ->
    length sanitized' + length errors'
    = length sanitized + length errors + length steps.
Proof.
  intros Habort.
  induction steps as [| step rest IH];
    intros sanitized errors sanitized' errors' H; simpl in H.
  - injection H as <- <-. simpl. lia.
  - destruct (validateStep s options step) as [r |] eqn:Hstep;
      cbn [bind] in H; [| discriminate].
    pose proof (kept_length r sanitized
                  (validateStep_sound s options step r Hstep)) as Hlen.
    rewrite Habort in H.
    destruct (step_error r) as [e |]; apply IH in H; rewrite H;
      rewrite ?length_app; simpl; lia.
Qed.

(** With [abortEarly] the loop records at most one error. *)
Lemma every_abort (steps : list jsval) :
  abortEarly options = true ->
  forall sanitized sanitized' errors',
    every s options steps sanitized [] = Ok (sanitized', errors') ->
    length errors' <= 1.
Proof.
  intros Habort.
  induction steps as [| step rest IH];
    intros sanitized sanitized' errors' H; simpl in H.
  - injection H as <- <-. simpl. lia.
  - destruct (validateStep s options step) as [r |];
      cbn [bind] in H; [| discriminate].
    rewrite Habort in H.
    destruct (step_error r) as [e |].
    + injection H as <- <-. simpl. lia.
    + exact (IH _ _ _ H).
Qed.

End Runs.

Section Batches.
Context {C : Collaborators}.
Variables (patch : jsval) (s : schema) (third : third_argument) (cb : bool).

(** A batch whose first element is truthy goes through the loop with empty
    accumulators. *)
Lemma validate_run :
  truthy (hd JUndefined (as_array patch)) = true ->
  validate patch s third cb
  = acc <- every s (effective_options third) (as_array patch) [] [] ;;
    err <- encapsulate (snd acc) ;;
    Ok (deliver (callback_given third cb)
          {| error := err; value := fst acc |}).
Proof.
  intros Hfirst. unfold validate.
  destruct (as_array patch) as [| first rest]; [discriminate |].
  simpl in Hfirst. rewrite Hfirst. reflexivity.
Qed.

End Batches.

(** X16. With [abortEarly], nothing after the first failing step is looked
    at: when the steps before it pass and it fails, [validate] returns its
    error, unwrapped, and the values of the steps before it, whatever the
    rest of the batch is. *)
Theorem X16_abort_early_ignores_the_rest :
  forall (C : Collaborators) (s : schema) (third : third_argument) (cb : bool)
         (pre : list jsval) (results : list StepResult) (bad : jsval)
         (r : StepResult) (e : ValidationError) (rest : list jsval),
    abortEarly (effective_options third) = true ->
    truthy (hd JUndefined (pre ++ bad :: rest)) = true ->
    Forall2 (passes s (effective_options third)) pre results ->
    validateStep s (effective_options third) bad = Ok r ->
    step_error r = Some e ->
    validate (JArr (pre ++ bad :: rest)) s third cb
    = Ok (deliver (callback_given third cb)
            {| error := Some e; value := map step_value results |}).
Proof.
  intros C s third cb pre results bad r e rest Habort Hfirst Hpre Hbad He.
  rewrite validate_run by exact Hfirst. cbn [as_array].
  rewrite (every_passing_prefix s _ pre results (bad :: rest) Hpre).
  cbn [every]. rewrite Hbad. cbn [bind]. rewrite He, Habort.
  destruct (validateStep_sound s _ bad r Hbad)
    as [[Hnone _] | (e' & _ & -> & _)]; [congruence |].
  cbn [truthy bind snd fst app]. rewrite encapsulate_aggregate.
  reflexivity.
Qed.

Module Early.
Definition unknown : jsval := JObj (Sample.operation "remove" "/blah").
Definition weight : jsval := JObj (Weight.add (JNum 4)).
(** A step on which the resolver would throw. *)
Definition below_scalar : jsval :=
  JObj (Sample.operation "remove" "/description/x").
End Early.

Lemma X16_abort_early_ignores_the_rest_witness :
  Sample.run (JArr [Early.weight; Early.unknown; Early.below_scalar]) Omitted
  = Ok (Returned {| error := Some Batch.invalid_path;
                    value := [Early.weight] |}).
Proof.
  apply (X16_abort_early_ignores_the_rest Sample.collaborators
           Sample.testSchema Omitted false [Early.weight]
           [passed (Weight.add (JNum 4))] Early.unknown
           (failed Batch.invalid_path) Batch.invalid_path
           [Early.below_scalar]);
    try reflexivity.
  repeat constructor.
Defined.

(** X17. Without [abortEarly], every step of a batch that [validate] returns
    from is accounted for exactly once: the number of values plus the number
    of reported errors is the number of steps. *)
Theorem X17_collect_all_accounts_for_every_step :
  forall (C : Collaborators) (patch : jsval) (s : schema)
         (third : third_argument) (cb : bool) (d : delivery),
    truthy (hd JUndefined (as_array patch)) = true ->
    abortEarly (effective_options third) = false ->
    validate patch s third cb = Ok d ->
    length (value (outcome_of d)) + error_count (error (outcome_of d))
    = length (as_array patch).
Proof.
  intros C patch s third cb d Hfirst Habort H.
  rewrite validate_run in H by exact Hfirst.
  destruct (every s (effective_options third) (as_array patch) [] [])
    as [[sanitized errors] |] eqn:Hloop; cbn [bind] in H; [| discriminate].
  rewrite encapsulate_aggregate in H. cbn [bind snd fst] in H.
  injection H as <-. rewrite outcome_of_deliver. cbn [value error].
  destruct (every_invariant s _ _ _ _ _ _ Hloop (Forall_nil _) (Forall_nil _))
    as [_ Hsingle].
  rewrite (error_count_aggregate _ Hsingle).
  apply (every_count s _ _ Habort) in Hloop. simpl in Hloop. exact Hloop.
Qed.

Lemma X17_collect_all_accounts_for_every_step_witness :
  exists d,
    Sample.run Batch.three_steps Batch.collect_all = Ok d
    /\ length (value (outcome_of d)) = 1
    /\ error_count (error (outcome_of d)) = 2.
Proof.
  eexists. split; [reflexivity |].
  pose proof (X17_collect_all_accounts_for_every_step Sample.collaborators
                Batch.three_steps Sample.testSchema Batch.collect_all false _
                eq_refl eq_refl eq_refl) as Hcount.
  split; [reflexivity |]. simpl in Hcount. simpl. lia.
Defined.

(** X18. A throw is not caught: when the steps before it pass and a step
    makes [validateStep] throw, [validate] throws the same exception and
    returns nothing, with or without [abortEarly]. *)
Theorem X18_throw_escapes_validate :
  forall (C : Collaborators) (s : schema) (third : third_argument) (cb : bool)
         (pre : list jsval) (results : list StepResult) (bad : jsval)
         (exn : string) (rest : list jsval),
    truthy (hd JUndefined (pre ++ bad :: rest)) = true ->
    Forall2 (passes s (effective_options third)) pre results ->
    validateStep s (effective_options third) bad = Throw exn ->
    validate (JArr (pre ++ bad :: rest)) s third cb = Throw exn.
Proof.
  intros C s third cb pre results bad exn rest Hfirst Hpre Hbad.
  rewrite validate_run by exact Hfirst. cbn [as_array].
  rewrite (every_passing_prefix s _ pre results (bad :: rest) Hpre).
  cbn [every]. rewrite Hbad. reflexivity.
Qed.

Lemma X18_throw_escapes_validate_witness :
  Sample.run (JArr [Early.weight; Early.below_scalar; Early.unknown]) Omitted
  = Throw "TypeError: cannot read property find".
Proof.
  apply (X18_throw_escapes_validate Sample.collaborators Sample.testSchema
           Omitted false [Early.weight] [passed (Weight.add (JNum 4))]
           Early.below_scalar "TypeError: cannot read property find"
           [Early.unknown]);
    try reflexivity.
  repeat constructor.
Defined.

(** X19. The callback receives what would have been returned: two calls
    whose options merge to the same settings produce the same outcome or the
    same throw, and differ only in how the outcome is handed over. *)
Theorem X19_callback_receives_the_outcome :
  forall (C : Collaborators) (patch : jsval) (s : schema)
         (third third' : third_argument) (cb cb' : bool),
    effective_options third = effective_options third' ->
    validate patch s third cb
    = match validate patch s third' cb' with
      | Ok d => Ok (deliver (callback_given third cb) (outcome_of d))
      | Throw exn => Throw exn
      end.
Proof.
  intros C patch s third third' cb cb' Hsame. unfold validate.
  rewrite Hsame.
  destruct (if match as_array patch with
               | [] => true
               | first :: _ => negb (truthy first)
               end
            then e <- new_ValidationError "empty patch" NoDetails ;; Ok [e]
            else Ok []) as [errors0 |]; cbn [bind]; [| reflexivity].
  destruct (every s (effective_options third') _ [] errors0) as [acc |];
    cbn [bind]; [| reflexivity].
  destruct (encapsulate (snd acc)) as [err |]; cbn [bind]; [| reflexivity].
  rewrite outcome_of_deliver. reflexivity.
Qed.

Lemma X19_callback_receives_the_outcome_witness :
  validate (C := Sample.collaborators) Early.unknown Sample.testSchema
           WithCallback false
  = Ok (CalledBack {| error := Some Batch.invalid_path; value := [] |}).
Proof.
  rewrite (X19_callback_receives_the_outcome Sample.collaborators
             Early.unknown Sample.testSchema WithCallback Omitted false false
             eq_refl).
  reflexivity.
Defined.

(** X20. When every step of a batch passes, the error is [null] and the
    value lists the normalized operations one for one, in input order. *)
Theorem X20_all_steps_pass :
  forall (C : Collaborators) (patch : jsval) (s : schema)
         (third : third_argument) (cb : bool) (results : list StepResult),
    truthy (hd JUndefined (as_array patch)) = true ->
    Forall2 (passes s (effective_options third)) (as_array patch) results ->
    validate patch s third cb
    = Ok (deliver (callback_given third cb)
            {| error := None; value := map step_value results |})
    /\ length (map step_value results) = length (as_array patch).
Proof.
  intros C patch s third cb results Hfirst Hall. split.
  - rewrite validate_run by exact Hfirst.
    rewrite <- (app_nil_r (as_array patch)).
    rewrite (every_passing_prefix s _ _ results [] Hall). reflexivity.
  - rewrite length_map. symmetry. exact (Forall2_length Hall).
Qed.

Lemma X20_all_steps_pass_witness :
  Sample.run (JArr [JObj (Weight.add (JStr "4")); Early.weight]) Omitted
  = Ok (Returned {| error := None; value := [Early.weight; Early.weight] |}).
Proof.
  apply (X20_all_steps_pass Sample.collaborators
           (JArr [JObj (Weight.add (JStr "4")); Early.weight])
           Sample.testSchema Omitted false
           [passed (Weight.add (JNum 4)); passed (Weight.add (JNum 4))]);
    [reflexivity |].
  repeat constructor.
Defined.

(** X21. Whatever the input, every element of the value that [validate]
    hands over is an object: a failed step contributes nothing, and no
    [null] or scalar ever enters the list. *)
Theorem X21_value_holds_objects_only :
  forall (C : Collaborators) (patch : jsval) (s : schema)
         (third : third_argument) (cb : bool) (d : delivery),
    validate patch s third cb = Ok d ->
    Forall object (value (outcome_of d)).
Proof.
  intros C patch s third cb d H.
  destruct (truthy (hd JUndefined (as_array patch))) eqn:Hfirst.
  - rewrite validate_run in H by exact Hfirst.
    destruct (every s (effective_options third) (as_array patch) [] [])
      as [[sanitized errors] |] eqn:Hloop; cbn [bind] in H; [| discriminate].
    rewrite encapsulate_aggregate in H. cbn [bind snd fst] in H.
    injection H as <-. rewrite outcome_of_deliver. cbn [value].
    exact (proj1 (every_invariant s _ _ _ _ _ _ Hloop
                    (Forall_nil _) (Forall_nil _))).
  - rewrite validate_empty in H by exact Hfirst.
    injection H as <-. rewrite outcome_of_deliver. constructor.
Qed.

Lemma X21_value_holds_objects_only_witness :
  Forall object [Early.weight].
Proof.
  exact (X21_value_holds_objects_only Sample.collaborators
           (JArr [Early.weight; Early.unknown]) Sample.testSchema Omitted false
           (Returned {| error := Some Batch.invalid_path;
                        value := [Early.weight] |})
           eq_refl).
Defined.

(** X22. With [abortEarly] (the default) the error handed over is never an
    aggregate: its [errors] property is never a list of sub-errors. *)
Theorem X22_abort_early_never_aggregates :
  forall (C : Collaborators) (patch : jsval) (s : schema)
         (third : third_argument) (cb : bool) (d : delivery)
         (e : ValidationError),
    abortEarly (effective_options third) = true ->
    validate patch s third cb = Ok d ->
    error (outcome_of d) = Some e ->
    forall l, error_errors e <> ErrorsList l.
Proof.
  intros C patch s third cb d e Habort H He.
  destruct (truthy (hd JUndefined (as_array patch))) eqn:Hfirst.
  - rewrite validate_run in H by exact Hfirst.
    destruct (every s (effective_options third) (as_array patch) [] [])
      as [[sanitized errors] |] eqn:Hloop; cbn [bind] in H; [| discriminate].
    rewrite encapsulate_aggregate in H. cbn [bind snd fst] in H.
    injection H as <-. rewrite outcome_of_deliver in He. cbn [error] in He.
    pose proof (every_abort s _ _ Habort _ _ _ Hloop) as Hlen.
    destruct (every_invariant s _ _ _ _ _ _ Hloop (Forall_nil _) (Forall_nil _))
      as [_ Hsingle].
    destruct errors as [| e1 [| e2 more]]; simpl in *; [discriminate | | lia].
    injection He as <-. inversion Hsingle; assumption.
  - rewrite validate_empty in H by exact Hfirst.
    injection H as <-. rewrite outcome_of_deliver in He.
    injection He as <-. discriminate.
Qed.

Lemma X22_abort_early_never_aggregates_witness :
  error_errors Batch.invalid_source
  <> ErrorsList [Batch.invalid_source; Batch.invalid_path].
Proof.
  exact (X22_abort_early_never_aggregates Sample.collaborators
           Batch.three_steps Sample.testSchema Omitted false
           (Returned {| error := Some Batch.invalid_source; value := [] |})
           Batch.invalid_source eq_refl eq_refl eq_refl
           [Batch.invalid_source; Batch.invalid_path]).
Defined.
